(** * Validation schemas of the Example entity (m01_example_schema.py)

    The module declares four Pydantic v2 models: [ExampleBase],
    [ExampleCreate], [ExampleUpdate] and [ExampleRead].  Each declaration is
    embedded as a table of field descriptions ([FieldInfo]) together with
    the model configuration ([extra], [from_attributes]); a generic
    validator, [validate_model], interprets such a table the way the
    models-fields validator of Pydantic does: every declared field is
    looked up in the input, validated or defaulted, every failure is
    collected, and an instance is built only when no failure was collected.
    [model_validate] puts before it the two cases in which no field is
    read: an input that is already an instance of the model, and an input
    that is no mapping and has no attributes to read. *)

From Stdlib Require Import List String Ascii Bool Arith ZArith NArith Lia.
From Stdlib Require Import DecimalString.
Import ListNotations.
Open Scope string_scope.

(** ** Python values *)

(** A Python [str] is a sequence of code points; [len] counts them. *)
Definition codepoint := N.
Definition str := list codepoint.

(** The [str] whose characters are those of an ASCII literal. *)
Definition str_of (s : string) : str :=
  map N_of_ascii (list_ascii_of_string s).

(** ["a" * n]. *)
Definition str_repeat (c : string) (n : nat) : str :=
  List.concat (repeat (str_of c) n).

Definition len (s : str) : nat := List.length s.

Fixpoint str_eqb (a b : str) : bool :=
  match a, b with
  | [], [] => true
  | x :: a', y :: b' => N.eqb x y && str_eqb a' b'
  | _, _ => false
  end.

(** [datetime.datetime]: the fields of the object; [tzoffset] is the UTC
    offset in seconds of an aware value and [None] for a naive one. *)
Record datetime := mk_datetime {
  year : Z; month : Z; day : Z;
  hour : Z; minute : Z; second : Z; microsecond : Z;
  tzoffset : option Z
}.

(** The values an input can hold under a key.  [VOther ty] stands for a
    value of a type that none of the scalar validators used here accepts
    (a list, a dict, a set, an arbitrary object); [ty] is its type name.
    Floats, bytes, decimals and dates, which lax mode also converts, are
    not represented. *)
Inductive value :=
| VNone
| VBool (b : bool)
| VInt (z : Z)
| VStr (s : str)
| VDatetime (d : datetime)
| VOther (ty : string).

Definition type_name (v : value) : string :=
  match v with
  | VNone => "NoneType"
  | VBool _ => "bool"
  | VInt _ => "int"
  | VStr _ => "str"
  | VDatetime _ => "datetime"
  | VOther ty => ty
  end.

(** A keyword mapping ([dict] with [str] keys) in insertion order, and the
    attribute table of an object; both are read by name. *)
Definition items := list (string * value).

Fixpoint dict_get (d : items) (k : string) : option value :=
  match d with
  | [] => None
  | (k', v) :: d' => if String.eqb k k' then Some v else dict_get d' k
  end.

Definition keys (d : items) : list string := map fst d.

(** [del d[k]]. *)
Definition dict_del (k : string) (d : items) : items :=
  filter (fun kv => negb (String.eqb k (fst kv))) d.

(** What the fields of a model are read from: a mapping, read by key, or
    an object, read by attribute.  [Obj cls attrs] is an object of a
    class of the program (a persistence record, say) that is neither an
    instance of the model being validated nor a value of a builtin type;
    [cls] is the name of its class and appears in reports only.  Those
    other inputs are told apart in [py_input] below. *)
Inductive data :=
| Dict (d : items)
| Obj (cls : string) (attrs : items).

Definition data_items (x : data) : items :=
  match x with Dict d => d | Obj _ a => a end.

(** [d.get(k)] on a mapping, [getattr(o, k)] on an object. *)
Definition lookup_field (x : data) (k : string) : option value :=
  dict_get (data_items x) k.

Definition data_type_name (x : data) : string :=
  match x with Dict _ => "dict" | Obj cls _ => cls end.

(** ** Field declarations *)

Inductive annotation := TStr | TBool | TInt | TDatetime.

(** [Field(default, min_length=, max_length=)] on an annotation [T] or
    [T | None].  [default = None] is the ellipsis: the field is required. *)
Record FieldInfo := mk_field {
  field_type : annotation;
  nullable : bool;
  default : option value;
  min_length : option nat;
  max_length : option nat
}.

Record ModelSchema := mk_model {
  cls_name : string;
  model_fields : list (string * FieldInfo);
  extra_forbid : bool;
  from_attributes : bool
}.

Definition field_names (m : ModelSchema) : list string :=
  map fst (model_fields m).

(** ** The models of the module *)

Module Schema.

Definition name : FieldInfo :=
  mk_field TStr false None (Some 1) (Some 100).
Definition description : FieldInfo :=
  mk_field TStr true (Some VNone) None (Some 500).
Definition is_active : FieldInfo :=
  mk_field TBool false (Some (VBool true)) None None.

Definition ExampleBase_fields : list (string * FieldInfo) :=
  [("name", name); ("description", description); ("is_active", is_active)].

(** [class ExampleCreate(ExampleBase): pass] *)
Definition ExampleCreate : ModelSchema :=
  mk_model "ExampleCreate" ExampleBase_fields false false.

(** [class ExampleUpdate(BaseModel)] with [extra="forbid"]. *)
Definition ExampleUpdate : ModelSchema :=
  mk_model "ExampleUpdate"
    [("name", mk_field TStr true (Some VNone) (Some 1) (Some 100));
     ("description", mk_field TStr true (Some VNone) None (Some 500));
     ("is_active", mk_field TBool true (Some VNone) None None)]
    true false.

(** [class ExampleRead(ExampleBase)] with [from_attributes=True]. *)
Definition ExampleRead : ModelSchema :=
  mk_model "ExampleRead"
    (ExampleBase_fields ++
     [("id", mk_field TInt false None None None);
      ("created_at", mk_field TDatetime false None None None);
      ("updated_at", mk_field TDatetime false None None None)])
    false true.

End Schema.

(** ** Validation errors *)

Inductive error_type :=
| Missing
| ExtraForbidden
| ModelType (cls : string)
| ModelAttributesType
| StringType
| StringTooShort (min : nat)
| StringTooLong (max : nat)
| BoolType
| BoolParsing
| IntType
| IntParsing
| DatetimeType
| DatetimeParsing (reason : string)
| DatetimeFromDateParsing (reason : string).

Definition decimal (n : nat) : string :=
  NilEmpty.string_of_uint (Nat.to_uint n).

Definition plural (n : nat) : string :=
  if Nat.eqb n 1 then "" else "s".

Definition message_of (e : error_type) : string :=
  match e with
  | Missing => "Field required"
  | ExtraForbidden => "Extra inputs are not permitted"
  | ModelType cls =>
      "Input should be a valid dictionary or instance of " ++ cls
  | ModelAttributesType =>
      "Input should be a valid dictionary or object to extract fields from"
  | StringType => "Input should be a valid string"
  | StringTooShort n =>
      "String should have at least " ++ decimal n ++ " character" ++ plural n
  | StringTooLong n =>
      "String should have at most " ++ decimal n ++ " character" ++ plural n
  | BoolType => "Input should be a valid boolean"
  | BoolParsing =>
      "Input should be a valid boolean, unable to interpret input"
  | IntType => "Input should be a valid integer"
  | IntParsing =>
      "Input should be a valid integer, unable to parse string as an integer"
  | DatetimeType => "Input should be a valid datetime"
  | DatetimeParsing reason => "Input should be a valid datetime, " ++ reason
  | DatetimeFromDateParsing reason =>
      "Input should be a valid datetime or date, " ++ reason
  end.

(** What an error entry reports as its input: the value found under the
    field, or the whole input when the field is missing. *)
Inductive err_input :=
| InputValue (v : value)
| InputData (x : data).

Definition input_type (i : err_input) : string :=
  match i with
  | InputValue v => type_name v
  | InputData x => data_type_name x
  end.

Record ErrorDetails := mk_error {
  err_type : error_type;
  loc : list string;
  msg : string;
  input : err_input
}.

Definition error (ty : error_type) (l : list string) (i : err_input)
  : ErrorDetails :=
  mk_error ty l (message_of ty) i.

(** A [ValidationError] is the list of its entries. *)
Definition ValidationError := list ErrorDetails.

(** ** Instances *)

(** A model instance: its class, its [__dict__] (field name to validated
    value, in declaration order) and [model_fields_set], the names of the
    fields that were supplied rather than defaulted. *)
Record Instance := mk_instance {
  inst_class : string;
  inst_dict : items;
  inst_fields_set : list string
}.

Definition getattr (o : Instance) (k : string) : option value :=
  dict_get (inst_dict o) k.

(** [model_dump()]. *)
Definition model_dump (o : Instance) : items := inst_dict o.

(** [model_dump(exclude_unset=True)]. *)
Definition model_dump_exclude_unset (o : Instance) : items :=
  filter (fun kv => existsb (String.eqb (fst kv)) (inst_fields_set o))
         (inst_dict o).

Definition result := (ValidationError + Instance)%type.

Definition is_ok (r : result) : bool :=
  match r with inr _ => true | inl _ => false end.

Definition is_err (r : result) : bool := negb (is_ok r).

(** ** Scalar validators (lax mode) *)

(** The conversions of lax mode whose grammar lives in the validation
    library and not in this module: reading an integer from a string, and
    a datetime from an ISO 8601 string or from a Unix timestamp.  They are
    an interface of the development; every result below holds for any
    implementation of it. *)
Class LaxCoercions := {
  int_of_str : str -> option Z;
  datetime_of_str : str -> string + datetime;
  datetime_of_int : Z -> string + datetime
}.

Definition ascii_lower (c : codepoint) : codepoint :=
  if (N.leb 65 c && N.leb c 90)%bool then (c + 32)%N else c.

Definition eq_ignore_ascii_case (s : str) (lit : string) : bool :=
  str_eqb (map ascii_lower s) (map ascii_lower (str_of lit)).

Definition str_as_bool (s : str) : option bool :=
  if (str_eqb s (str_of "0")
      || eq_ignore_ascii_case s "f" || eq_ignore_ascii_case s "n"
      || eq_ignore_ascii_case s "no" || eq_ignore_ascii_case s "off"
      || eq_ignore_ascii_case s "false")%bool then Some false
  else if (str_eqb s (str_of "1")
      || eq_ignore_ascii_case s "t" || eq_ignore_ascii_case s "y"
      || eq_ignore_ascii_case s "on" || eq_ignore_ascii_case s "yes"
      || eq_ignore_ascii_case s "true")%bool then Some true
  else None.

(** The integers that fit a signed 64-bit word. *)
Definition in_int64 (z : Z) : bool :=
  (Z.leb (- 2 ^ 63) z && Z.ltb z (2 ^ 63))%bool.

Definition int_as_bool (z : Z) : option bool :=
  if Z.eqb z 0 then Some false
  else if Z.eqb z 1 then Some true
  else None.

Definition too_short (fi : FieldInfo) (s : str) : option nat :=
  match min_length fi with
  | Some n => if Nat.ltb (len s) n then Some n else None
  | None => None
  end.

Definition too_long (fi : FieldInfo) (s : str) : option nat :=
  match max_length fi with
  | Some n => if Nat.ltb n (len s) then Some n else None
  | None => None
  end.

(** [str]: only a string is accepted; its length is then checked, the
    lower bound first. *)
Definition validate_str (fi : FieldInfo) (v : value) : error_type + value :=
  match v with
  | VStr s =>
      match too_short fi s with
      | Some n => inl (StringTooShort n)
      | None =>
          match too_long fi s with
          | Some n => inl (StringTooLong n)
          | None => inr (VStr s)
          end
      end
  | _ => inl StringType
  end.

(** [bool]: a boolean, the integers 0 and 1, or one of the accepted words;
    an integer too large for a 64-bit word is not read as an integer. *)
Definition validate_bool (v : value) : error_type + value :=
  match v with
  | VBool b => inr (VBool b)
  | VInt z =>
      if in_int64 z then
        match int_as_bool z with
        | Some b => inr (VBool b)
        | None => inl BoolParsing
        end
      else inl BoolType
  | VStr s =>
      match str_as_bool s with
      | Some b => inr (VBool b)
      | None => inl BoolParsing
      end
  | _ => inl BoolType
  end.

(** Everything [model_validate] can be given: an input whose fields are
    read ([Plain]), an instance of a model, already built, or a value of a
    builtin type that is not a mapping ([None], a number, a string, a
    datetime, a list, ...). *)
Inductive py_input :=
| Plain (x : data)
| ModelInstance (o : Instance)
| Builtin (v : value).

Section Validation.

Context {lax : LaxCoercions}.

(** [int]: an integer, a boolean (a subclass of [int]) or a numeric string. *)
Definition validate_int (v : value) : error_type + value :=
  match v with
  | VInt z => inr (VInt z)
  | VBool b => inr (VInt (if b then 1 else 0))
  | VStr s =>
      match int_of_str s with
      | Some z => inr (VInt z)
      | None => inl IntParsing
      end
  | _ => inl IntType
  end.

(** [datetime]: a datetime, a timestamp or an ISO 8601 string; a boolean
    is not taken for a timestamp.  A string that is no datetime is tried
    as a date, and the failure reported is that of the second attempt. *)
Definition validate_datetime (v : value) : error_type + value :=
  match v with
  | VDatetime d => inr (VDatetime d)
  | VInt z =>
      match datetime_of_int z with
      | inr d => inr (VDatetime d)
      | inl reason => inl (DatetimeParsing reason)
      end
  | VStr s =>
      match datetime_of_str s with
      | inr d => inr (VDatetime d)
      | inl reason => inl (DatetimeFromDateParsing reason)
      end
  | _ => inl DatetimeType
  end.

Definition is_none (v : value) : bool :=
  match v with VNone => true | _ => false end.

(** The validator of one field: [T | None] lets [None] through before
    [T]'s validator, and so before any length constraint, is consulted. *)
Definition validate_field (fi : FieldInfo) (v : value) : error_type + value :=
  if (nullable fi && is_none v)%bool then inr VNone
  else
    match field_type fi with
    | TStr => validate_str fi v
    | TBool => validate_bool v
    | TInt => validate_int v
    | TDatetime => validate_datetime v
    end.

(** ** The model validator *)

Record fields_outcome := mk_outcome {
  fo_errors : list ErrorDetails;
  fo_dict : items;
  fo_set : list string
}.

(** One pass over the declared fields, in declaration order: a supplied
    value is validated, an absent one takes the default (defaults are not
    validated), and an absent required one is an error on the whole input. *)
Fixpoint validate_fields (fs : list (string * FieldInfo)) (x : data)
  : fields_outcome :=
  match fs with
  | [] => mk_outcome [] [] []
  | (k, fi) :: rest =>
      let r := validate_fields rest x in
      match lookup_field x k with
      | Some v =>
          match validate_field fi v with
          | inr v' =>
              mk_outcome (fo_errors r) ((k, v') :: fo_dict r) (k :: fo_set r)
          | inl e =>
              mk_outcome (error e [k] (InputValue v) :: fo_errors r)
                         (fo_dict r) (fo_set r)
          end
      | None =>
          match default fi with
          | Some dv => mk_outcome (fo_errors r) ((k, dv) :: fo_dict r) (fo_set r)
          | None =>
              mk_outcome (error Missing [k] (InputData x) :: fo_errors r)
                         (fo_dict r) (fo_set r)
          end
      end
  end.

Definition is_field (m : ModelSchema) (k : string) : bool :=
  existsb (String.eqb k) (field_names m).

(** [extra="forbid"]: every key that is not a declared field is an error;
    otherwise such keys are ignored. *)
Definition extra_errors (m : ModelSchema) (d : items) : list ErrorDetails :=
  if extra_forbid m then
    map (fun kv => error ExtraForbidden [fst kv] (InputValue (snd kv)))
        (filter (fun kv => negb (is_field m (fst kv))) d)
  else [].

Definition validate_model (m : ModelSchema) (x : data) : result :=
  match x, from_attributes m with
  | Obj _ _, false => inl [error (ModelType (cls_name m)) [] (InputData x)]
  | _, _ =>
      let r := validate_fields (model_fields m) x in
      match (fo_errors r ++ extra_errors m (data_items x))%list with
      | [] => inr (mk_instance (cls_name m) (fo_dict r) (fo_set r))
      | errs => inl errs
      end
  end.

(** The constructor [ExampleCreate], called with the keywords [d]. *)
Definition parse_create (d : items) : result :=
  validate_model Schema.ExampleCreate (Dict d).

(** The constructor [ExampleUpdate], called with the keywords [d]. *)
Definition parse_update (d : items) : result :=
  validate_model Schema.ExampleUpdate (Dict d).

(** [ExampleRead.model_validate(x)] for a mapping or an object [x] as
    [data] describes them; the constructor called with the keywords [d]
    is [parse_read (Dict d)]. *)
Definition parse_read (x : data) : result :=
  validate_model Schema.ExampleRead x.

(** [cls.model_validate(i)] for any input.  An instance of the model
    itself is returned as it is, without validation (instances are not
    revalidated); an instance of another model is an object like any
    other; a builtin value has no fields to read and gives one error on
    the input as a whole. *)
Definition model_validate (m : ModelSchema) (i : py_input) : result :=
  match i with
  | Plain x => validate_model m x
  | ModelInstance o =>
      if String.eqb (inst_class o) (cls_name m) then inr o
      else validate_model m (Obj (inst_class o) (inst_dict o))
  | Builtin v =>
      inl [error (if from_attributes m then ModelAttributesType
                  else ModelType (cls_name m))
                 [] (InputValue v)]
  end.

(** The input whose fields [model_validate] reads one by one, when it
    reads any. *)
Definition fields_input (m : ModelSchema) (i : py_input) : option data :=
  match i with
  | Plain (Dict d) => Some (Dict d)
  | Plain (Obj cls attrs) =>
      if from_attributes m then Some (Obj cls attrs) else None
  | ModelInstance o =>
      if from_attributes m then Some (Obj (inst_class o) (inst_dict o))
      else None
  | Builtin _ => None
  end.

(** [BaseModel.__eq__]: same class and same [__dict__]; the set of supplied
    fields takes no part in the comparison. *)
Definition model_eq (a b : Instance) : Prop :=
  inst_class a = inst_class b /\ inst_dict a = inst_dict b.

End Validation.

(** ** Specification-side predicates *)

Section Predicates.

Context {lax : LaxCoercions}.

(** A declared field is invalid on an input when it is required and absent,
    or supplied with a value its validator refuses. *)
Definition field_invalid (x : data) (kf : string * FieldInfo) : bool :=
  match lookup_field x (fst kf) with
  | Some v =>
      match validate_field (snd kf) v with inl _ => true | inr _ => false end
  | None =>
      match default (snd kf) with None => true | Some _ => false end
  end.

(** The keys of the input that the model does not declare. *)
Definition unknown_keys (m : ModelSchema) (x : data) : list string :=
  filter (fun k => negb (is_field m k)) (keys (data_items x)).

(** The invalid fields of an input, in the order they are reported:
    declared fields first, then, for a closed model, the unknown keys. *)
Definition invalid_fields (m : ModelSchema) (x : data) : list string :=
  (map fst (filter (field_invalid x) (model_fields m))
   ++ (if extra_forbid m then unknown_keys m x else []))%list.

(** An entry describes a field of the input: a one-step path, the message
    of its error type, and as input either the value supplied under that
    name or, for a missing field, the whole input. *)
Definition entry_describes (x : data) (e : ErrorDetails) : Prop :=
  exists k,
    loc e = [k] /\
    msg e = message_of (err_type e) /\ msg e <> "" /\
    match input e with
    | InputValue v => In (k, v) (data_items x)
    | InputData x' =>
        x' = x /\ lookup_field x k = None /\ err_type e = Missing
    end.

(** The path of a top-level field. *)
Definition singleton_path (k : string) : list string := [k].

(** Everything the validator has to report on an input: the entries of
    the declared fields, then those of the unknown keys. *)
Definition all_errors (m : ModelSchema) (x : data) : list ErrorDetails :=
  (fo_errors (validate_fields (model_fields m) x)
   ++ extra_errors m (data_items x))%list.

(** The input has the shape the model reads: a mapping, or an object when
    the model is configured with [from_attributes]. *)
Definition readable (m : ModelSchema) (x : data) : Prop :=
  match x with Dict _ => True | Obj _ _ => from_attributes m = true end.

(** *** Length and requiredness constraints *)

(** A string under [k] whose length lies outside the bounds [lo .. hi]. *)
Definition length_outside (x : data) (k : string) (lo hi : nat) (s : str)
  : Prop :=
  lookup_field x k = Some (VStr s) /\ (len s < lo \/ hi < len s).

(** The length and requiredness constraints of the entity are violated:
    [name] is absent, or is a string shorter than 1 or longer than 100, or
    [description] is a string longer than 500. *)
Definition create_violation (d : items) : Prop :=
  dict_get d "name" = None \/
  (exists s, length_outside (Dict d) "name" 1 100 s) \/
  (exists s, length_outside (Dict d) "description" 0 500 s).

(** The supplied values have the declared types: [name] a string,
    [description] a string or [None], [is_active] a boolean. *)
Definition create_well_typed (d : items) : Prop :=
  match dict_get d "name" with
  | None | Some (VStr _) => True
  | _ => False
  end /\
  match dict_get d "description" with
  | None | Some VNone | Some (VStr _) => True
  | _ => False
  end /\
  match dict_get d "is_active" with
  | None | Some (VBool _) => True
  | _ => False
  end.

(** The input violates a length constraint of the entity, and the error
    says so on the offending string. *)
Definition length_violation (x : data) (s : str) : Prop :=
  length_outside x "name" 1 100 s \/ length_outside x "description" 0 500 s.

Definition reports_length (errs : ValidationError) (s : str) : Prop :=
  exists e,
    In e errs /\ input e = InputValue (VStr s) /\
    ((loc e = ["name"] /\
      (err_type e = StringTooShort 1 \/ err_type e = StringTooLong 100)) \/
     (loc e = ["description"] /\ err_type e = StringTooLong 500)).

(** *** Error reports *)

(** The error has one entry per invalid field, in order, and every entry
    describes its field; with distinct keys in the input no field is
    reported twice. *)
Definition one_entry_per_invalid_field
  (m : ModelSchema) (x : data) (errs : ValidationError) : Prop :=
  errs <> [] /\
  map loc errs = map singleton_path (invalid_fields m x) /\
  Forall (entry_describes x) errs /\
  (NoDup (keys (data_items x)) -> NoDup (map loc errs)).

(** The report on an input that has no fields to read: one entry, on
    the input as a whole. *)
Definition unusable_report (m : ModelSchema) (errs : ValidationError)
  : Prop :=
  exists e,
    errs = [e] /\ loc e = [] /\ msg e <> "" /\
    (err_type e = ModelType (cls_name m) \/
     err_type e = ModelAttributesType).


(** *** Null against absent in a patch *)

(** Two outcomes of [parse_update] that differ at most in whether [k] is
    recorded as supplied: the same errors, or instances with the same
    field values, [k] being [None] in both, supplied in the first only. *)
Definition same_but_supplied (k : string) (r1 r2 : result) : Prop :=
  match r1, r2 with
  | inr o1, inr o2 =>
      inst_class o1 = inst_class o2 /\
      inst_dict o1 = inst_dict o2 /\
      getattr o1 k = Some VNone /\
      In k (inst_fields_set o1) /\ ~ In k (inst_fields_set o2)
  | inl e1, inl e2 => e1 = e2
  | _, _ => False
  end.

(** *** Instances against their declarations *)

(** The value has the type the field declares: [None] for a nullable
    field, or a value of the annotated scalar type. *)
Definition of_declared_type (fi : FieldInfo) (v : value) : bool :=
  (nullable fi && is_none v)
  || match field_type fi, v with
     | TStr, VStr _ | TBool, VBool _
     | TInt, VInt _ | TDatetime, VDatetime _ => true
     | _, _ => false
     end.

(** A string value respects the length bounds the field declares. *)
Definition within_bounds (fi : FieldInfo) (v : value) : Prop :=
  forall s, v = VStr s ->
    (forall n, min_length fi = Some n -> n <= len s) /\
    (forall n, max_length fi = Some n -> len s <= n).

Definition conforms (fi : FieldInfo) (v : value) : Prop :=
  of_declared_type fi v = true /\ within_bounds fi v.

(** The declared fields that the input supplies, in declaration order. *)
Definition supplied (m : ModelSchema) (x : data) : list string :=
  filter (fun k => match lookup_field x k with
                   | Some _ => true
                   | None => false
                   end)
         (field_names m).

(** The mapping has no key outside the declared fields. *)
Definition declared_keys_only (m : ModelSchema) (d : items) : Prop :=
  forall k, In k (keys d) -> In k (field_names m).

(** What [ExampleBase] promises of an instance: a name of 1 to 100
    characters, a description that is [None] or has at most 500
    characters, a boolean flag. *)
Definition base_invariant (o : Instance) : Prop :=
  (exists s, getattr o "name" = Some (VStr s) /\ 1 <= len s <= 100) /\
  (getattr o "description" = Some VNone \/
   exists t, getattr o "description" = Some (VStr t) /\ len t <= 500) /\
  (exists b, getattr o "is_active" = Some (VBool b)).

(** What [ExampleUpdate] promises: each field is [None] or as in the base. *)
Definition patch_invariant (o : Instance) : Prop :=
  (getattr o "name" = Some VNone \/
   exists s, getattr o "name" = Some (VStr s) /\ 1 <= len s <= 100) /\
  (getattr o "description" = Some VNone \/
   exists t, getattr o "description" = Some (VStr t) /\ len t <= 500) /\
  (getattr o "is_active" = Some VNone \/
   exists b, getattr o "is_active" = Some (VBool b)).

(** The fields [ExampleRead] adds hold an integer and two datetimes. *)
Definition server_fields_typed (o : Instance) : Prop :=
  exists i c u,
    getattr o "id" = Some (VInt i) /\
    getattr o "created_at" = Some (VDatetime c) /\
    getattr o "updated_at" = Some (VDatetime u).

End Predicates.

(** ** A reference implementation of the conversions *)

(** The implementation that converts nothing: it reads no integer and no
    datetime out of a string or a timestamp.  The examples below run the
    models with it; none of their inputs asks for a conversion. *)
Definition no_conversion : LaxCoercions :=
  {| int_of_str := fun _ => None;
     datetime_of_str := fun _ => inl "conversion not available";
     datetime_of_int := fun _ => inl "conversion not available" |}.

(** The timestamp used in the examples. *)
Definition T0 : datetime := mk_datetime 2024 1 15 10 30 0 0 None.

(** ** Properties of the validator *)

Section Properties.

Context {lax : LaxCoercions}.

(** *** Lookups *)

Lemma dict_get_In (d : items) (k : string) (v : value) :
  dict_get d k = Some v -> In (k, v) d.
Proof.
  induction d as [| [k' v'] d IH]; simpl; [discriminate |].
  destruct (String.eqb_spec k k') as [-> | _].
  - intros [= ->]. now left.
  - intros H. right. now apply IH.
Qed.

Lemma dict_get_None_keys (d : items) (k : string) :
  dict_get d k = None <-> ~ In k (keys d).
Proof.
  induction d as [| [k' v'] d IH]; simpl.
  - tauto.
  - destruct (String.eqb_spec k k') as [-> | Hne].
    + split; [discriminate | intros H; exfalso; apply H; now left].
    + rewrite IH. split.
      * intros H [E | I]; [now apply Hne | now apply H].
      * intros H I. apply H. now right.
Qed.

Lemma dict_get_del_eq (d : items) (k : string) :
  dict_get (dict_del k d) k = None.
Proof.
  induction d as [| [k' v'] d IH]; simpl; [reflexivity |].
  destruct (String.eqb_spec k k') as [-> | Hne]; simpl; [exact IH |].
  destruct (String.eqb_spec k k'); [contradiction | exact IH].
Qed.

Lemma dict_get_del_ne (d : items) (k k' : string) :
  k <> k' -> dict_get (dict_del k d) k' = dict_get d k'.
Proof.
  intros Hne.
  induction d as [| [k0 v0] d IH]; simpl; [reflexivity |].
  destruct (String.eqb_spec k k0) as [<- | Hk]; simpl.
  - destruct (String.eqb_spec k' k) as [-> | _]; [contradiction | exact IH].
  - now rewrite IH.
Qed.

(** *** Messages *)

Lemma message_of_nonempty (e : error_type) : message_of e <> "".
Proof. destruct e; simpl; discriminate. Qed.

(** *** The pass over the declared fields *)

Lemma validate_fields_locs (fs : list (string * FieldInfo)) (x : data) :
  map loc (fo_errors (validate_fields fs x))
  = map singleton_path (map fst (filter (field_invalid x) fs)).
Proof.
  induction fs as [| [k fi] fs IH]; simpl; [reflexivity |].
  unfold field_invalid at 1; simpl.
  destruct (lookup_field x k) as [v |].
  - destruct (validate_field fi v); simpl; now rewrite IH.
  - destruct (default fi); simpl; now rewrite IH.
Qed.

Lemma validate_fields_entries (fs : list (string * FieldInfo)) (x : data) :
  Forall (entry_describes x) (fo_errors (validate_fields fs x)).
Proof.
  induction fs as [| [k fi] fs IH]; simpl; [constructor |].
  destruct (lookup_field x k) as [v |] eqn:Hk.
  - destruct (validate_field fi v) as [e | v']; simpl; [| exact IH].
    constructor; [| exact IH].
    exists k; simpl. repeat split.
    + apply message_of_nonempty.
    + now apply dict_get_In.
  - destruct (default fi); simpl; [exact IH |].
    constructor; [| exact IH].
    exists k; simpl. repeat split; [discriminate | exact Hk].
Qed.

(** Every refused value leaves its entry. *)
Lemma validate_fields_reports
  (fs : list (string * FieldInfo)) (x : data)
  (k : string) (fi : FieldInfo) (v : value) (e : error_type) :
  In (k, fi) fs -> lookup_field x k = Some v -> validate_field fi v = inl e ->
  In (error e [k] (InputValue v)) (fo_errors (validate_fields fs x)).
Proof.
  intros Hin Hk He.
  induction fs as [| [k0 fi0] fs IH]; simpl in *; [contradiction |].
  destruct Hin as [[= -> ->] | Hin].
  - rewrite Hk, He. now left.
  - specialize (IH Hin).
    destruct (lookup_field x k0) as [v0 |].
    + destruct (validate_field fi0 v0); simpl; [now right | exact IH].
    + destruct (default fi0); simpl; [exact IH | now right].
Qed.

(** Every absent required field leaves its entry. *)
Lemma validate_fields_reports_missing
  (fs : list (string * FieldInfo)) (x : data) (k : string) (fi : FieldInfo) :
  In (k, fi) fs -> lookup_field x k = None -> default fi = None ->
  In (error Missing [k] (InputData x)) (fo_errors (validate_fields fs x)).
Proof.
  intros Hin Hk Hd.
  induction fs as [| [k0 fi0] fs IH]; simpl in *; [contradiction |].
  destruct Hin as [[= -> ->] | Hin].
  - rewrite Hk, Hd. now left.
  - specialize (IH Hin).
    destruct (lookup_field x k0) as [v0 |].
    + destruct (validate_field fi0 v0); simpl; [now right | exact IH].
    + destruct (default fi0); simpl; [exact IH | now right].
Qed.


(** *** Unknown keys *)

Lemma extra_errors_locs (m : ModelSchema) (x : data) :
  map loc (extra_errors m (data_items x))
  = map singleton_path (if extra_forbid m then unknown_keys m x else []).
Proof.
  unfold extra_errors, unknown_keys, keys.
  destruct (extra_forbid m); [| reflexivity].
  induction (data_items x) as [| [k v] d IH]; simpl; [reflexivity |].
  destruct (is_field m k); simpl; now rewrite IH.
Qed.

Lemma extra_errors_entries (m : ModelSchema) (x : data) :
  Forall (entry_describes x) (extra_errors m (data_items x)).
Proof.
  unfold extra_errors. destruct (extra_forbid m); [| constructor].
  apply Forall_forall. intros e He.
  apply in_map_iff in He. destruct He as [[k v] [<- Hkv]].
  apply filter_In in Hkv. destruct Hkv as [Hkv _].
  exists k; simpl. repeat split; [discriminate | exact Hkv].
Qed.

(** *** The model validator *)

Lemma validate_model_readable (m : ModelSchema) (x : data) :
  readable m x ->
  validate_model m x =
  match all_errors m x with
  | [] => inr (mk_instance (cls_name m)
                 (fo_dict (validate_fields (model_fields m) x))
                 (fo_set (validate_fields (model_fields m) x)))
  | errs => inl errs
  end.
Proof.
  unfold validate_model, all_errors, readable.
  destruct x as [d | c a]; [now destruct (from_attributes m) |].
  now intros ->.
Qed.

Lemma validate_model_inl (m : ModelSchema) (x : data) (errs : ValidationError) :
  readable m x -> validate_model m x = inl errs ->
  errs = all_errors m x /\ errs <> [].
Proof.
  intros Hr. rewrite (validate_model_readable m x Hr).
  destruct (all_errors m x); [discriminate |].
  intros [= <-]. split; [reflexivity | discriminate].
Qed.

Lemma validate_model_inr (m : ModelSchema) (x : data) (o : Instance) :
  validate_model m x = inr o ->
  all_errors m x = [] /\
  o = mk_instance (cls_name m)
        (fo_dict (validate_fields (model_fields m) x))
        (fo_set (validate_fields (model_fields m) x)).
Proof.
  unfold validate_model, all_errors.
  destruct x as [d | c a]; destruct (from_attributes m); try discriminate;
    match goal with
    | |- context [(?a ++ ?b)%list] => destruct (a ++ b)%list
    end; try discriminate; intros [= <-]; now split.
Qed.

Lemma validate_model_reports (m : ModelSchema) (x : data) (e : ErrorDetails) :
  readable m x -> In e (all_errors m x) ->
  exists errs, validate_model m x = inl errs /\ In e errs.
Proof.
  intros Hr Hin. rewrite (validate_model_readable m x Hr).
  destruct (all_errors m x) as [| e0 errs]; [contradiction |].
  now exists (e0 :: errs).
Qed.

Lemma all_errors_locs (m : ModelSchema) (x : data) :
  map loc (all_errors m x) = map singleton_path (invalid_fields m x).
Proof.
  unfold all_errors, invalid_fields.
  now rewrite !map_app, validate_fields_locs, extra_errors_locs.
Qed.

Lemma all_errors_entries (m : ModelSchema) (x : data) :
  Forall (entry_describes x) (all_errors m x).
Proof.
  apply Forall_app. split.
  - apply validate_fields_entries.
  - apply extra_errors_entries.
Qed.

(** A readable input is accepted exactly when it has no invalid field. *)
Lemma validate_model_ok_iff (m : ModelSchema) (x : data) :
  readable m x ->
  (is_ok (validate_model m x) = true <-> invalid_fields m x = []).
Proof.
  intros Hr. rewrite (validate_model_readable m x Hr).
  pose proof (all_errors_locs m x) as Hl.
  destruct (all_errors m x) as [| e errs]; simpl in *.
  - split; [intros _ | reflexivity].
    destruct (invalid_fields m x); [reflexivity | discriminate].
  - split; [discriminate |]. intros E. rewrite E in Hl. discriminate.
Qed.

End Properties.

(** ** The validators of the fields of the entity *)

Section Fields.

Context {lax : LaxCoercions}.

Lemma validate_field_VStr (fi : FieldInfo) (s : str) :
  field_type fi = TStr ->
  validate_field fi (VStr s) = validate_str fi (VStr s).
Proof.
  intros Ht. unfold validate_field. rewrite Ht.
  now destruct (nullable fi).
Qed.

Lemma validate_field_VNone (fi : FieldInfo) :
  nullable fi = true -> validate_field fi VNone = inr VNone.
Proof. intros Hn. unfold validate_field. now rewrite Hn. Qed.

Lemma validate_str_short (fi : FieldInfo) (s : str) (n : nat) :
  min_length fi = Some n -> len s < n ->
  validate_str fi (VStr s) = inl (StringTooShort n).
Proof.
  intros Hmin Hlt. unfold validate_str, too_short. rewrite Hmin.
  destruct (Nat.ltb_spec (len s) n); [reflexivity | lia].
Qed.

Lemma validate_str_long (fi : FieldInfo) (s : str) (m : nat) :
  (forall n, min_length fi = Some n -> n <= len s) ->
  max_length fi = Some m -> m < len s ->
  validate_str fi (VStr s) = inl (StringTooLong m).
Proof.
  intros Hmin Hmax Hlt. unfold validate_str, too_short, too_long.
  rewrite Hmax.
  destruct (min_length fi) as [n |].
  - specialize (Hmin n eq_refl).
    destruct (Nat.ltb_spec (len s) n); [lia |].
    destruct (Nat.ltb_spec m (len s)); [reflexivity | lia].
  - destruct (Nat.ltb_spec m (len s)); [reflexivity | lia].
Qed.

Lemma validate_str_within (fi : FieldInfo) (s : str) :
  (forall n, min_length fi = Some n -> n <= len s) ->
  (forall m, max_length fi = Some m -> len s <= m) ->
  validate_str fi (VStr s) = inr (VStr s).
Proof.
  intros Hmin Hmax. unfold validate_str, too_short, too_long.
  destruct (min_length fi) as [n |].
  - specialize (Hmin n eq_refl).
    destruct (Nat.ltb_spec (len s) n); [lia |].
    destruct (max_length fi) as [m |]; [| reflexivity].
    specialize (Hmax m eq_refl).
    destruct (Nat.ltb_spec m (len s)); [lia | reflexivity].
  - destruct (max_length fi) as [m |]; [| reflexivity].
    specialize (Hmax m eq_refl).
    destruct (Nat.ltb_spec m (len s)); [lia | reflexivity].
Qed.

(** An accepted string is returned unchanged. *)
Lemma validate_str_inr (fi : FieldInfo) (v v' : value) :
  validate_str fi v = inr v' -> v' = v /\ exists s, v = VStr s.
Proof.
  destruct v; simpl; try discriminate.
  destruct (too_short fi s); [discriminate |].
  destruct (too_long fi s); [discriminate |].
  intros [= <-]. split; [reflexivity | now exists s].
Qed.

Lemma validate_bool_inr (v v' : value) :
  validate_bool v = inr v' -> exists b, v' = VBool b.
Proof.
  destruct v; simpl; try discriminate.
  - intros [= <-]. now exists b.
  - destruct (in_int64 z); [| discriminate].
    destruct (int_as_bool z) as [b |]; [| discriminate].
    intros [= <-]. now exists b.
  - destruct (str_as_bool s) as [b |]; [| discriminate].
    intros [= <-]. now exists b.
Qed.

(** Validating a string or boolean field a second time changes nothing. *)
Lemma validate_field_idempotent (fi : FieldInfo) (v v' : value) :
  field_type fi = TStr \/ field_type fi = TBool ->
  validate_field fi v = inr v' -> validate_field fi v' = inr v'.
Proof.
  intros Ht. unfold validate_field.
  destruct (nullable fi && is_none v)%bool eqn:Hn.
  - intros [= <-]. apply andb_true_iff in Hn. destruct Hn as [-> _].
    reflexivity.
  - destruct Ht as [Ht | Ht]; rewrite Ht.
    + intros H. destruct (validate_str_inr fi v v' H) as [-> [s ->]].
      now rewrite andb_false_r.
    + intros H. destruct (validate_bool_inr v v' H) as [b ->].
      now rewrite andb_false_r.
Qed.

Lemma name_too_short (s : str) :
  len s < 1 -> validate_field Schema.name (VStr s) = inl (StringTooShort 1).
Proof.
  intros H. rewrite validate_field_VStr by reflexivity.
  now apply validate_str_short.
Qed.

Lemma name_too_long (s : str) :
  100 < len s ->
  validate_field Schema.name (VStr s) = inl (StringTooLong 100).
Proof.
  intros H. rewrite validate_field_VStr by reflexivity.
  apply validate_str_long; [| reflexivity | exact H].
  intros n [= <-]. lia.
Qed.

Lemma name_within (s : str) :
  1 <= len s <= 100 -> validate_field Schema.name (VStr s) = inr (VStr s).
Proof.
  intros H. rewrite validate_field_VStr by reflexivity.
  apply validate_str_within; intros n [= <-]; lia.
Qed.

Lemma description_too_long (s : str) :
  500 < len s ->
  validate_field Schema.description (VStr s) = inl (StringTooLong 500).
Proof.
  intros H. rewrite validate_field_VStr by reflexivity.
  apply validate_str_long; [discriminate | reflexivity | exact H].
Qed.

Lemma description_within (s : str) :
  len s <= 500 ->
  validate_field Schema.description (VStr s) = inr (VStr s).
Proof.
  intros H. rewrite validate_field_VStr by reflexivity.
  apply validate_str_within; [discriminate |]. intros n [= <-]. lia.
Qed.

End Fields.

(** ** The Create shape *)

Section Create.

Context {lax : LaxCoercions}.

(** C3. For every string [s] with [1 <= len s <= 100], [parse_create] on
    the mapping that holds [s] under [name] and nothing else succeeds, and
    the instance has [name] equal to [s], [description] equal to [None]
    and [is_active] equal to [True]. *)
Theorem parse_create_name_only (s : str) :
  1 <= len s <= 100 ->
  exists o,
    parse_create [("name", VStr s)] = inr o /\
    getattr o "name" = Some (VStr s) /\
    getattr o "description" = Some VNone /\
    getattr o "is_active" = Some (VBool true).
Proof.
  intros Hlen. unfold parse_create, validate_model.
  cbn -[validate_field]. rewrite (name_within s Hlen). cbn.
  eexists. split; [reflexivity |]. now cbn.
Qed.

(** A violated length or requiredness constraint always fails the parse. *)
Lemma create_violation_fails (d : items) :
  create_violation d -> is_err (parse_create d) = true.
Proof.
  intros Hv.
  assert (exists e, In e (all_errors Schema.ExampleCreate (Dict d)))
    as [e He].
  { unfold all_errors.
    destruct Hv as [Habs | [[s [Hk [Hlen | Hlen]]] | [s [Hk [Hlen | Hlen]]]]];
      [| | | lia |]; eexists; apply in_or_app; left.
    - apply (validate_fields_reports_missing _ _ "name" Schema.name);
        [now left | exact Habs | reflexivity].
    - apply (validate_fields_reports _ _ "name" Schema.name (VStr s));
        [now left | exact Hk | now apply name_too_short].
    - apply (validate_fields_reports _ _ "name" Schema.name (VStr s));
        [now left | exact Hk | now apply name_too_long].
    - apply (validate_fields_reports _ _ "description" Schema.description
               (VStr s));
        [right; now left | exact Hk | now apply description_too_long]. }
  destruct (validate_model_reports Schema.ExampleCreate (Dict d) e I He)
    as [errs [Hp _]].
  unfold is_err, parse_create. now rewrite Hp.
Qed.

(** On values of the declared types nothing else fails it. *)
Lemma create_well_typed_fails (d : items) :
  create_well_typed d -> is_err (parse_create d) = true ->
  create_violation d.
Proof.
  unfold create_well_typed, create_violation, length_outside, lookup_field.
  unfold is_err, parse_create, validate_model. cbn -[validate_field].
  intros [Hn [Hd Ha]].
  destruct (dict_get d "name") as [[| | | s | |] |];
    try contradiction; [| intros _; now left].
  destruct (Nat.le_gt_cases 1 (len s)) as [H1 |];
    [| intros _; right; left; exists s; split; [reflexivity | now left]].
  destruct (Nat.le_gt_cases (len s) 100) as [H2 |];
    [| intros _; right; left; exists s; split; [reflexivity | now right]].
  rewrite (name_within s (conj H1 H2)).
  assert (Hact : forall b, validate_field Schema.is_active (VBool b)
                           = inr (VBool b)) by reflexivity.
  destruct (dict_get d "description") as [[| | | t | |] |];
    try contradiction.
  - destruct (dict_get d "is_active") as [[| b | | | |] |];
      try contradiction; rewrite ?Hact; cbn; discriminate.
  - destruct (Nat.le_gt_cases (len t) 500) as [H3 |];
      [| intros _; right; right; exists t; split; [reflexivity | now right]].
    rewrite (description_within t H3).
    destruct (dict_get d "is_active") as [[| b | | | |] |];
      try contradiction; rewrite ?Hact; cbn; discriminate.
  - destruct (dict_get d "is_active") as [[| b | | | |] |];
      try contradiction; rewrite ?Hact; cbn; discriminate.
Qed.

Lemma create_bounds_accepted (s t : str) :
  1 <= len s <= 100 -> len t <= 500 ->
  is_ok (parse_create [("name", VStr s); ("description", VStr t)]) = true.
Proof.
  intros Hs Ht. unfold parse_create, validate_model.
  cbn -[validate_field].
  now rewrite (name_within s Hs), (description_within t Ht).
Qed.

(** C5 (amended).  [parse_create] fails whenever a length or requiredness
    constraint is violated: [name] absent, [name] empty, [name] longer
    than 100 characters, [description] longer than 500 characters.  On
    inputs whose supplied values have the declared types it fails only
    then.  A description of exactly 500 characters, with a valid name,
    succeeds. *)
Theorem parse_create_fails_on_violation (d : items) :
  (create_violation d -> is_err (parse_create d) = true) /\
  (create_well_typed d ->
   is_err (parse_create d) = true -> create_violation d) /\
  (forall s t,
     d = [("name", VStr s); ("description", VStr t)] ->
     1 <= len s <= 100 -> len t = 500 ->
     is_ok (parse_create d) = true).
Proof.
  split; [apply create_violation_fails |].
  split; [apply create_well_typed_fails |].
  intros s t -> Hs Ht. apply create_bounds_accepted; [exact Hs | lia].
Qed.

(** C9. Round trip of the Create shape: when [parse_create] succeeds on a
    mapping, dumping the instance to a mapping and parsing that again
    succeeds with an instance equal to the first. *)
Theorem parse_create_round_trip (d : items) (o : Instance) :
  parse_create d = inr o ->
  exists o', parse_create (model_dump o) = inr o' /\ model_eq o o'.
Proof.
  unfold parse_create, validate_model. cbn -[validate_field].
  pose proof (validate_field_idempotent Schema.name) as Hn.
  pose proof (validate_field_idempotent Schema.description) as Hd.
  pose proof (validate_field_idempotent Schema.is_active) as Ha.
  destruct (dict_get d "name") as [v1 |];
    [destruct (validate_field Schema.name v1) as [e1 | n] eqn:V1 |];
    (destruct (dict_get d "description") as [v2 |];
     [destruct (validate_field Schema.description v2) as [e2 | t] eqn:V2 |]);
    (destruct (dict_get d "is_active") as [v3 |];
     [destruct (validate_field Schema.is_active v3) as [e3 | a] eqn:V3 |]);
    cbn -[validate_field]; try discriminate; intros [= <-];
    unfold model_dump; cbn -[validate_field];
    rewrite ?(Hn _ _ (or_introl eq_refl) V1),
            ?(Hd _ _ (or_introl eq_refl) V2),
            ?(Ha _ _ (or_intror eq_refl) V3);
    cbn; eexists; (split; [reflexivity | now split]).
Qed.

End Create.

(** ** The Update shape *)

Section Update.

Context {lax : LaxCoercions}.

Lemma unknown_key_invalid (m : ModelSchema) (d : items) (k : string) :
  extra_forbid m = true -> In k (keys d) -> is_field m k = false ->
  In k (invalid_fields m (Dict d)).
Proof.
  intros Hf Hk Hn. unfold invalid_fields, unknown_keys. rewrite Hf.
  apply in_or_app. right. apply filter_In. split; [exact Hk |].
  now rewrite Hn.
Qed.

Lemma not_declared_iff (m : ModelSchema) (k : string) :
  is_field m k = false <-> ~ In k (field_names m).
Proof.
  unfold is_field. split.
  - intros E Hin.
    assert (existsb (String.eqb k) (field_names m) = true); [| congruence].
    apply existsb_exists. exists k. split; [exact Hin | apply String.eqb_refl].
  - intros Hn.
    destruct (existsb (String.eqb k) (field_names m)) eqn:E; [| reflexivity].
    apply existsb_exists in E. destruct E as [k' [Hin Heq]].
    apply String.eqb_eq in Heq. subst k'. contradiction.
Qed.

(** C4. [parse_update] fails on every mapping that has a key outside
    [name], [description], [is_active]; [parse_create] does not forbid
    such keys: on some mapping with one it succeeds. *)
Theorem update_closed_create_open :
  (forall (d : items) (k : string),
     In k (keys d) -> ~ In k ["name"; "description"; "is_active"] ->
     is_err (parse_update d) = true) /\
  (exists (d : items) (k : string),
     In k (keys d) /\ ~ In k ["name"; "description"; "is_active"] /\
     is_ok (parse_create d) = true).
Proof.
  split.
  - intros d k Hk Hn.
    pose proof (validate_model_ok_iff Schema.ExampleUpdate (Dict d) I)
      as Hiff.
    unfold is_err, parse_update.
    destruct (is_ok (validate_model Schema.ExampleUpdate (Dict d)));
      [| reflexivity].
    assert (Hnil : invalid_fields Schema.ExampleUpdate (Dict d) = [])
      by now apply Hiff.
    pose proof (unknown_key_invalid Schema.ExampleUpdate d k eq_refl Hk
                  (proj2 (not_declared_iff Schema.ExampleUpdate k) Hn)) as Hin.
    rewrite Hnil in Hin. contradiction.
  - exists [("name", VStr (str_of "Test"));
            ("extra_field", VStr (str_of "value"))], "extra_field".
    split; [right; now left |]. split; [| reflexivity].
    intros [H | [H | [H | []]]]; discriminate.
Qed.

Lemma extra_errors_del (m : ModelSchema) (k : string) (d : items) :
  is_field m k = true ->
  extra_errors m (dict_del k d) = extra_errors m d.
Proof.
  intros Hk. unfold extra_errors, dict_del.
  destruct (extra_forbid m); [| reflexivity]. f_equal.
  induction d as [| [k0 v0] d IH]; simpl; [reflexivity |].
  destruct (String.eqb_spec k k0) as [<- | Hne]; simpl.
  - now rewrite Hk.
  - now rewrite IH.
Qed.

(** A field of the patch supplied as [None] against the same field left
    out: the same outcome, up to the record of what was supplied. *)
Lemma update_null_vs_absent (k : string) (d : items) :
  In k ["name"; "description"; "is_active"] ->
  dict_get d k = Some VNone ->
  same_but_supplied k (parse_update d) (parse_update (dict_del k d)).
Proof.
  intros Hk Hnull. unfold parse_update, validate_model.
  cbn [from_attributes Schema.ExampleUpdate data_items].
  assert (Hf : is_field Schema.ExampleUpdate k = true)
    by (destruct Hk as [<- | [<- | [<- | []]]]; reflexivity).
  rewrite (extra_errors_del _ _ _ Hf).
  destruct (extra_errors Schema.ExampleUpdate d) as [| x xs].
  - destruct Hk as [<- | [<- | [<- | []]]];
      cbn -[validate_field dict_del]; rewrite Hnull, dict_get_del_eq;
      rewrite !dict_get_del_ne by discriminate;
      rewrite validate_field_VNone by reflexivity;
      repeat match goal with
        | |- context [dict_get d ?f] =>
            destruct (dict_get d f) as [? |]
        | |- context [validate_field ?fi ?v] =>
            destruct (validate_field fi v)
        end; cbn; intuition (try discriminate; try congruence).
  - destruct Hk as [<- | [<- | [<- | []]]];
      cbn -[validate_field dict_del]; rewrite Hnull, dict_get_del_eq;
      rewrite !dict_get_del_ne by discriminate;
      rewrite validate_field_VNone by reflexivity;
      repeat match goal with
        | |- context [dict_get d ?f] =>
            destruct (dict_get d f) as [? |]
        | |- context [validate_field ?fi ?v] =>
            destruct (validate_field fi v)
        end; cbn; reflexivity.
Qed.

End Update.

Section Patch.

Context {lax : LaxCoercions}.

Lemma dict_get_filter_keys (p : string -> bool) (d : items) (k : string) :
  dict_get (filter (fun kv => p (fst kv)) d) k
  = if p k then dict_get d k else None.
Proof.
  induction d as [| [k0 v0] d IH]; simpl; [now destruct (p k) |].
  destruct (p k0) eqn:Hp0; simpl;
    destruct (String.eqb_spec k k0) as [-> | Hne]; try exact IH.
  - now rewrite Hp0.
  - rewrite IH, Hp0. reflexivity.
Qed.

Lemma supplied_iff (o : Instance) (k : string) :
  existsb (String.eqb k) (inst_fields_set o) = true
  <-> In k (inst_fields_set o).
Proof.
  rewrite existsb_exists. split.
  - intros [k' [Hin Heq]]. apply String.eqb_eq in Heq. now subst.
  - intros Hin. exists k. split; [exact Hin | apply String.eqb_refl].
Qed.

(** What the patch holds for [k]: the field value if [k] was supplied,
    nothing otherwise. *)
Lemma patch_entry (o : Instance) (k : string) :
  dict_get (model_dump_exclude_unset o) k
  = if existsb (String.eqb k) (inst_fields_set o) then getattr o k else None.
Proof.
  unfold model_dump_exclude_unset, getattr.
  apply (dict_get_filter_keys
           (fun k' => existsb (String.eqb k') (inst_fields_set o))).
Qed.

(** C7. In the Update shape a field left out is distinct from the same
    field given as an explicit [None]: when the parse with the explicit
    [None] succeeds, so does the parse without the field, and the two
    instances can be told apart, for the field is recorded as supplied in
    the first only; the patch of supplied fields holds [None] for it in
    the first and has no entry for it in the second. *)
Theorem update_absent_differs_from_null
  (k : string) (d : items) (o_null : Instance) :
  In k ["name"; "description"; "is_active"] ->
  dict_get d k = Some VNone ->
  parse_update d = inr o_null ->
  exists o_absent,
    parse_update (dict_del k d) = inr o_absent /\
    o_absent <> o_null /\
    In k (inst_fields_set o_null) /\ ~ In k (inst_fields_set o_absent) /\
    dict_get (model_dump_exclude_unset o_null) k = Some VNone /\
    dict_get (model_dump_exclude_unset o_absent) k = None.
Proof.
  intros Hk Hnull Hp.
  pose proof (update_null_vs_absent k d Hk Hnull) as H.
  rewrite Hp in H. unfold same_but_supplied in H.
  destruct (parse_update (dict_del k d)) as [errs | o2]; [contradiction |].
  destruct H as [_ [_ [Hget [Hin Hnin]]]].
  exists o2. split; [reflexivity |]. split; [| split; [exact Hin |]].
  - intros ->. contradiction.
  - split; [exact Hnin |]. rewrite !patch_entry. split.
    + apply supplied_iff in Hin. now rewrite Hin.
    + destruct (existsb (String.eqb k) (inst_fields_set o2)) eqn:E;
        [| reflexivity].
      apply supplied_iff in E. contradiction.
Qed.

(** C10. [parse_update] accepts an explicit [None] for [name] and for
    [is_active] (and for [description]): the length constraints are
    consulted for strings only.  The [None] adds no error, and on success
    the field values are those obtained when the field is left out. *)
Theorem update_null_accepted (k : string) (d : items) :
  In k ["name"; "description"; "is_active"] ->
  dict_get d k = Some VNone ->
  is_ok (parse_update [(k, VNone)]) = true /\
  (forall errs,
     parse_update d = inl errs <-> parse_update (dict_del k d) = inl errs) /\
  (forall o,
     parse_update d = inr o ->
     getattr o k = Some VNone /\
     exists o',
       parse_update (dict_del k d) = inr o' /\ inst_dict o' = inst_dict o).
Proof.
  intros Hk Hnull.
  split; [destruct Hk as [<- | [<- | [<- | []]]]; reflexivity |].
  pose proof (update_null_vs_absent k d Hk Hnull) as H.
  unfold same_but_supplied in H.
  destruct (parse_update d) as [e1 | o1];
    destruct (parse_update (dict_del k d)) as [e2 | o2];
    try contradiction.
  - subst e2. split; [tauto |]. discriminate.
  - destruct H as [_ [Hd [Hget _]]]. split.
    + intros errs. split; discriminate.
    + intros o [= <-]. split; [exact Hget |].
      exists o2. now split.
Qed.

End Patch.

(** ** The Read shape *)

Section Read.

Context {lax : LaxCoercions}.

Lemma readable_read (x : data) : readable Schema.ExampleRead x.
Proof. now destruct x. Qed.

Lemma filter_nil_iff {A : Type} (p : A -> bool) (l : list A) :
  filter p l = [] <-> forall a, In a l -> p a = false.
Proof.
  induction l as [| a l IH]; simpl.
  - split; [intros _ a [] | reflexivity].
  - destruct (p a) eqn:Hp; split.
    + discriminate.
    + intros H. specialize (H a (or_introl eq_refl)). congruence.
    + intros H b [<- | Hb]; [exact Hp | now apply IH].
    + intros H. apply IH. intros b Hb. apply H. now right.
Qed.

(** An open model accepts a readable input exactly when no declared
    field is invalid on it. *)
Lemma open_model_ok_iff (m : ModelSchema) (x : data) :
  readable m x -> extra_forbid m = false ->
  (is_ok (validate_model m x) = true <->
   forall kf, In kf (model_fields m) -> field_invalid x kf = false).
Proof.
  intros Hr Hf. rewrite (validate_model_ok_iff m x Hr).
  unfold invalid_fields. rewrite Hf, app_nil_r.
  rewrite <- filter_nil_iff.
  destruct (filter (field_invalid x) (model_fields m));
    split; intros; (reflexivity || discriminate).
Qed.

(** C1 (amended).  [parse_read] succeeds exactly when the four fields
    declared without a default, [name], [id], [created_at] and
    [updated_at], are present and every supplied field is accepted by its
    validator; [description] and [is_active] may be absent.  On the input
    that holds only [name] it fails, and the error has one entry for each
    of the missing required fields [id], [created_at], [updated_at]. *)
Theorem parse_read_requires :
  (forall x : data,
     is_ok (parse_read x) = true <->
     (forall k, In k ["name"; "id"; "created_at"; "updated_at"] ->
                lookup_field x k <> None) /\
     (forall k fi v,
        In (k, fi) (model_fields Schema.ExampleRead) ->
        lookup_field x k = Some v ->
        exists v', validate_field fi v = inr v')) /\
  (exists errs,
     parse_read (Dict [("name", VStr (str_of "Test"))]) = inl errs /\
     map loc errs = [["id"]; ["created_at"]; ["updated_at"]] /\
     Forall (fun e => err_type e = Missing) errs).
Proof.
  split.
  - intros x. unfold parse_read.
    rewrite (open_model_ok_iff _ x (readable_read x) eq_refl).
    split.
    + intros H. split.
      * intros k Hk Habs.
        destruct Hk as [<- | [<- | [<- | [<- | []]]]];
          match goal with
          | Hk : lookup_field x ?f = None |- _ =>
              match eval cbn in (model_fields Schema.ExampleRead) with
              | context [(f, ?fi)] =>
                  assert (Hf : field_invalid x (f, fi) = false)
                    by (apply H; cbn; tauto);
                  unfold field_invalid in Hf; cbn [fst snd] in Hf;
                  rewrite Hk in Hf; discriminate
              end
          end.
      * intros k fi v Hin Hk. specialize (H (k, fi) Hin).
        unfold field_invalid in H. cbn [fst snd] in H. rewrite Hk in H.
        destruct (validate_field fi v) as [e | v']; [discriminate |].
        now exists v'.
    + intros [Hreq Hval] [k fi] Hin. unfold field_invalid. cbn [fst snd].
      destruct (lookup_field x k) as [v |] eqn:Hk.
      * destruct (Hval k fi v Hin Hk) as [v' ->]. reflexivity.
      * cbn in Hin.
        destruct Hin as [[= <- <-] | [[= <- <-] | [[= <- <-] |
                        [[= <- <-] | [[= <- <-] | [[= <- <-] | []]]]]]];
          try reflexivity; exfalso;
          refine (Hreq _ _ Hk); cbn; tauto.
  - eexists. split; [reflexivity |]. split; [reflexivity |].
    repeat constructor.
Qed.

End Read.

Section ReadConstraints.

Context {lax : LaxCoercions}.

(** A refused string is reported by the model that declares the field. *)
Lemma str_field_reports
  (m : ModelSchema) (x : data) (k : string) (fi : FieldInfo)
  (s : str) (e : error_type) :
  readable m x -> In (k, fi) (model_fields m) -> field_type fi = TStr ->
  lookup_field x k = Some (VStr s) -> validate_str fi (VStr s) = inl e ->
  exists errs,
    validate_model m x = inl errs /\
    In (error e [k] (InputValue (VStr s))) errs.
Proof.
  intros Hr Hin Ht Hk He.
  apply (validate_model_reports m x _ Hr).
  apply in_or_app. left.
  apply (validate_fields_reports _ _ k fi (VStr s)); [exact Hin | exact Hk |].
  now rewrite validate_field_VStr.
Qed.

(** The three shapes constrain the two strings alike. *)
Lemma length_violation_reported (m : ModelSchema) (x : data) (s : str) :
  In m [Schema.ExampleCreate; Schema.ExampleUpdate; Schema.ExampleRead] ->
  readable m x -> length_violation x s ->
  exists errs, validate_model m x = inl errs /\ reports_length errs s.
Proof.
  intros Hm Hr Hv.
  assert (Hname : exists fi, In ("name", fi) (model_fields m) /\
            field_type fi = TStr /\
            min_length fi = Some 1 /\ max_length fi = Some 100).
  { destruct Hm as [<- | [<- | [<- | []]]]; eexists;
      (split; [now left | repeat split]). }
  assert (Hdesc : exists fi, In ("description", fi) (model_fields m) /\
            field_type fi = TStr /\
            min_length fi = None /\ max_length fi = Some 500).
  { destruct Hm as [<- | [<- | [<- | []]]]; eexists;
      (split; [right; now left | repeat split]). }
  destruct Hname as [fn [Hin_n [Ht_n [Hmin_n Hmax_n]]]].
  destruct Hdesc as [fd [Hin_d [Ht_d [Hmin_d Hmax_d]]]].
  destruct Hv as [[Hk [Hlen | Hlen]] | [Hk [Hlen | Hlen]]]; [| | lia |].
  - destruct (str_field_reports m x "name" fn s (StringTooShort 1)
                Hr Hin_n Ht_n Hk) as [errs [Hp He]];
      [now apply validate_str_short |].
    exists errs. split; [exact Hp |].
    eexists. split; [exact He |]. split; [reflexivity |]. left. now split; [| left].
  - destruct (str_field_reports m x "name" fn s (StringTooLong 100)
                Hr Hin_n Ht_n Hk) as [errs [Hp He]].
    { apply validate_str_long; [| exact Hmax_n | exact Hlen].
      intros n. rewrite Hmin_n. intros [= <-]. lia. }
    exists errs. split; [exact Hp |].
    eexists. split; [exact He |]. split; [reflexivity |]. left. now split; [| right].
  - destruct (str_field_reports m x "description" fd s (StringTooLong 500)
                Hr Hin_d Ht_d Hk) as [errs [Hp He]].
    { apply validate_str_long; [| exact Hmax_d | exact Hlen].
      intros n. rewrite Hmin_d. discriminate. }
    exists errs. split; [exact Hp |].
    eexists. split; [exact He |]. split; [reflexivity |]. right. now split.
Qed.

(** C2 (amended).  The length constraints are enforced when a Read value
    is constructed, as they are for Create and Update: Read inherits the
    constrained fields of the base, so [parse_read] rejects an input whose
    [name] is a string shorter than 1 or longer than 100 characters, or
    whose [description] is a string longer than 500 characters, and the
    error names the offending string. *)
Theorem parse_read_enforces_lengths (x : data) (s : str) :
  length_violation x s ->
  (exists errs, parse_read x = inl errs /\ reports_length errs s) /\
  (forall d, x = Dict d ->
     (exists errs, parse_create d = inl errs /\ reports_length errs s) /\
     (exists errs, parse_update d = inl errs /\ reports_length errs s)).
Proof.
  intros Hv. split.
  - apply length_violation_reported;
      [cbn; tauto | apply readable_read | exact Hv].
  - intros d ->. split; apply length_violation_reported;
      solve [cbn; tauto | exact I | exact Hv].
Qed.


End ReadConstraints.

(** ** Error reports *)

Section Reports.

Context {lax : LaxCoercions}.

Lemma NoDup_map_fst_filter {A B : Type} (p : A * B -> bool)
  (l : list (A * B)) :
  NoDup (map fst l) -> NoDup (map fst (filter p l)).
Proof.
  induction l as [| a l IH]; simpl; [constructor |].
  intros Hnd. inversion Hnd as [| ? ? Hnotin Hnd']; subst.
  destruct (p a); simpl; [| now apply IH].
  constructor; [| now apply IH].
  intros Hin. apply Hnotin.
  apply in_map_iff in Hin. destruct Hin as [b [Hfst Hb]].
  apply filter_In in Hb. apply in_map_iff. exists b. tauto.
Qed.

Lemma NoDup_singleton_paths (l : list string) :
  NoDup l -> NoDup (map singleton_path l).
Proof.
  induction 1 as [| k l Hnotin _ IH]; simpl; constructor; [| exact IH].
  intros Hin. apply in_map_iff in Hin.
  destruct Hin as [k' [[= ->] Hk']]. contradiction.
Qed.

Lemma invalid_fields_NoDup (m : ModelSchema) (x : data) :
  NoDup (field_names m) -> NoDup (keys (data_items x)) ->
  NoDup (invalid_fields m x).
Proof.
  intros Hf Hk. unfold invalid_fields. apply NoDup_app.
  - now apply NoDup_map_fst_filter.
  - destruct (extra_forbid m); [| constructor].
    now apply NoDup_filter.
  - intros k Hin Hin'.
    destruct (extra_forbid m); [| contradiction].
    apply filter_In in Hin'. destruct Hin' as [_ Hnf].
    apply in_map_iff in Hin. destruct Hin as [[k' fi] [<- Hkf]].
    apply filter_In in Hkf. destruct Hkf as [Hkf _].
    apply negb_true_iff in Hnf.
    rewrite not_declared_iff in Hnf. apply Hnf.
    apply in_map_iff. now exists (k', fi).
Qed.

Lemma report_per_field (m : ModelSchema) (x : data) (errs : ValidationError) :
  readable m x -> NoDup (field_names m) ->
  validate_model m x = inl errs -> one_entry_per_invalid_field m x errs.
Proof.
  intros Hr Hf Hp.
  destruct (validate_model_inl m x errs Hr Hp) as [-> Hne].
  split; [exact Hne |]. split; [apply all_errors_locs |].
  split; [apply all_errors_entries |].
  intros Hk. rewrite all_errors_locs.
  apply NoDup_singleton_paths. now apply invalid_fields_NoDup.
Qed.


End Reports.

(** ** The models run on concrete inputs *)

(** The inputs of the test suite; [no_conversion] is the implementation
    of the conversions, which none of them needs. *)

Lemma parse_create_name_only_witness :
  1 <= len (str_of "Test Item") <= 100 /\
  exists o,
    parse_create (lax := no_conversion)
      [("name", VStr (str_of "Test Item"))] = inr o /\
    getattr o "name" = Some (VStr (str_of "Test Item")) /\
    getattr o "description" = Some VNone /\
    getattr o "is_active" = Some (VBool true).
Proof.
  assert (H : 1 <= len (str_of "Test Item") <= 100) by (vm_compute; lia).
  split; [exact H |].
  exact (parse_create_name_only (lax := no_conversion) _ H).
Defined.

(** C1, as stated, fails: with [description] and [is_active] absent the
    Read value is constructed all the same, from the defaults. *)
Lemma parse_read_defaults_counterexample :
  lookup_field
    (Dict [("id", VInt 1); ("name", VStr (str_of "Test"));
           ("created_at", VDatetime T0); ("updated_at", VDatetime T0)])
    "description" = None /\
  lookup_field
    (Dict [("id", VInt 1); ("name", VStr (str_of "Test"));
           ("created_at", VDatetime T0); ("updated_at", VDatetime T0)])
    "is_active" = None /\
  parse_read (lax := no_conversion)
    (Dict [("id", VInt 1); ("name", VStr (str_of "Test"));
           ("created_at", VDatetime T0); ("updated_at", VDatetime T0)])
  = inr (mk_instance "ExampleRead"
           [("name", VStr (str_of "Test")); ("description", VNone);
            ("is_active", VBool true); ("id", VInt 1);
            ("created_at", VDatetime T0); ("updated_at", VDatetime T0)]
           ["name"; "id"; "created_at"; "updated_at"]).
Proof. repeat split. Qed.

(** C2, as stated, fails: a Read input with an empty [name] is rejected
    for the length of the name, and accepted once the name is not empty. *)
Lemma parse_read_length_counterexample :
  parse_read (lax := no_conversion)
    (Dict [("id", VInt 1); ("name", VStr []);
           ("description", VStr (str_of "Test description"));
           ("is_active", VBool true);
           ("created_at", VDatetime T0); ("updated_at", VDatetime T0)])
  = inl [error (StringTooShort 1) ["name"] (InputValue (VStr []))] /\
  is_ok
    (parse_read (lax := no_conversion)
       (Dict [("id", VInt 1); ("name", VStr (str_of "Test Item"));
              ("description", VStr (str_of "Test description"));
              ("is_active", VBool true);
              ("created_at", VDatetime T0); ("updated_at", VDatetime T0)]))
  = true.
Proof. split; reflexivity. Qed.

Lemma parse_read_enforces_lengths_witness :
  length_violation
    (Dict [("id", VInt 1); ("name", VStr (str_repeat "a" 101));
           ("created_at", VDatetime T0); ("updated_at", VDatetime T0)])
    (str_repeat "a" 101) /\
  exists errs,
    parse_read (lax := no_conversion)
      (Dict [("id", VInt 1); ("name", VStr (str_repeat "a" 101));
             ("created_at", VDatetime T0); ("updated_at", VDatetime T0)])
    = inl errs /\
    reports_length errs (str_repeat "a" 101).
Proof.
  assert (H : length_violation
    (Dict [("id", VInt 1); ("name", VStr (str_repeat "a" 101));
           ("created_at", VDatetime T0); ("updated_at", VDatetime T0)])
    (str_repeat "a" 101)).
  { left. split; [reflexivity |]. right. vm_compute. lia. }
  split; [exact H |].
  exact (proj1 (parse_read_enforces_lengths (lax := no_conversion) _ _ H)).
Defined.

(** C5, as stated, fails: a value of the wrong type fails the parse while
    every length and requiredness constraint holds. *)
Lemma parse_create_type_counterexample :
  parse_create (lax := no_conversion)
    [("name", VStr (str_of "Test")); ("is_active", VNone)]
  = inl [error BoolType ["is_active"] (InputValue VNone)] /\
  ~ create_violation [("name", VStr (str_of "Test")); ("is_active", VNone)].
Proof.
  split; [reflexivity |].
  intros [H | [[s [H Hlen]] | [s [H Hlen]]]].
  - discriminate H.
  - injection H as <-. vm_compute in Hlen. lia.
  - discriminate H.
Qed.

Lemma parse_create_fails_on_violation_witness :
  (create_violation [("name", VStr [])] /\
   is_err (parse_create (lax := no_conversion) [("name", VStr [])]) = true) /\
  (create_well_typed [] /\
   is_err (parse_create (lax := no_conversion) []) = true /\
   create_violation []) /\
  (1 <= len (str_of "Test") <= 100 /\
   len (str_repeat "a" 500) = 500 /\
   is_ok (parse_create (lax := no_conversion)
            [("name", VStr (str_of "Test"));
             ("description", VStr (str_repeat "a" 500))]) = true).
Proof.
  assert (H1 : create_violation [("name", VStr [])]).
  { right. left. exists []. split; [reflexivity |]. left. vm_compute. lia. }
  assert (H2 : create_well_typed []) by (vm_compute; tauto).
  assert (H3 : is_err (parse_create (lax := no_conversion) []) = true)
    by reflexivity.
  assert (H4 : 1 <= len (str_of "Test") <= 100) by (vm_compute; lia).
  assert (H5 : len (str_repeat "a" 500) = 500) by reflexivity.
  split; [split; [exact H1 |] | split; [split; [exact H2 | split; [exact H3 |]] |
          split; [exact H4 | split; [exact H5 |]]]].
  - exact (proj1 (parse_create_fails_on_violation
                    (lax := no_conversion) _) H1).
  - exact (proj1 (proj2 (parse_create_fails_on_violation
                           (lax := no_conversion) _)) H2 H3).
  - exact (proj2 (proj2 (parse_create_fails_on_violation
                           (lax := no_conversion) _)) _ _ eq_refl H4 H5).
Defined.

Lemma update_closed_create_open_witness :
  In "extra_field"
     (keys [("name", VStr (str_of "Test"));
            ("extra_field", VStr (str_of "value"))]) /\
  ~ In "extra_field" ["name"; "description"; "is_active"] /\
  is_err (parse_update (lax := no_conversion)
            [("name", VStr (str_of "Test"));
             ("extra_field", VStr (str_of "value"))]) = true.
Proof.
  assert (H1 : In "extra_field"
     (keys [("name", VStr (str_of "Test"));
            ("extra_field", VStr (str_of "value"))])) by (right; now left).
  assert (H2 : ~ In "extra_field" ["name"; "description"; "is_active"])
    by (intros [H | [H | [H | []]]]; discriminate).
  split; [exact H1 |]. split; [exact H2 |].
  exact (proj1 (update_closed_create_open (lax := no_conversion)) _ _ H1 H2).
Defined.


Lemma update_absent_differs_from_null_witness :
  In "name" ["name"; "description"; "is_active"] /\
  dict_get [("name", VNone)] "name" = Some VNone /\
  parse_update (lax := no_conversion) [("name", VNone)]
  = inr (mk_instance "ExampleUpdate"
           [("name", VNone); ("description", VNone); ("is_active", VNone)]
           ["name"]) /\
  exists o_absent,
    parse_update (lax := no_conversion) (dict_del "name" [("name", VNone)])
    = inr o_absent /\
    o_absent <> mk_instance "ExampleUpdate"
           [("name", VNone); ("description", VNone); ("is_active", VNone)]
           ["name"] /\
    In "name" ["name"] /\ ~ In "name" (inst_fields_set o_absent) /\
    dict_get
      (model_dump_exclude_unset
         (mk_instance "ExampleUpdate"
            [("name", VNone); ("description", VNone); ("is_active", VNone)]
            ["name"])) "name" = Some VNone /\
    dict_get (model_dump_exclude_unset o_absent) "name" = None.
Proof.
  split; [now left |]. split; [reflexivity |]. split; [reflexivity |].
  exact (update_absent_differs_from_null (lax := no_conversion)
           "name" [("name", VNone)] _ (or_introl eq_refl) eq_refl eq_refl).
Defined.

Lemma parse_create_round_trip_witness :
  parse_create (lax := no_conversion)
    [("name", VStr (str_of "Test Item")); ("is_active", VStr (str_of "no"))]
  = inr (mk_instance "ExampleCreate"
           [("name", VStr (str_of "Test Item")); ("description", VNone);
            ("is_active", VBool false)]
           ["name"; "is_active"]) /\
  exists o',
    parse_create (lax := no_conversion)
      (model_dump
         (mk_instance "ExampleCreate"
            [("name", VStr (str_of "Test Item")); ("description", VNone);
             ("is_active", VBool false)]
            ["name"; "is_active"])) = inr o' /\
    model_eq
      (mk_instance "ExampleCreate"
         [("name", VStr (str_of "Test Item")); ("description", VNone);
          ("is_active", VBool false)]
         ["name"; "is_active"]) o'.
Proof.
  split; [reflexivity |].
  exact (parse_create_round_trip (lax := no_conversion)
           [("name", VStr (str_of "Test Item"));
            ("is_active", VStr (str_of "no"))]
           (mk_instance "ExampleCreate"
              [("name", VStr (str_of "Test Item")); ("description", VNone);
               ("is_active", VBool false)]
              ["name"; "is_active"])
           eq_refl).
Defined.

Lemma update_null_accepted_witness :
  In "is_active" ["name"; "description"; "is_active"] /\
  dict_get [("description", VStr (str_of "x")); ("is_active", VNone)]
    "is_active" = Some VNone /\
  is_ok (parse_update (lax := no_conversion) [("is_active", VNone)]) = true /\
  parse_update (lax := no_conversion)
    (dict_del "is_active"
       [("description", VStr (str_of "x")); ("is_active", VNone)])
  = inr (mk_instance "ExampleUpdate"
           [("name", VNone); ("description", VStr (str_of "x"));
            ("is_active", VNone)]
           ["description"]).
Proof.
  assert (H1 : In "is_active" ["name"; "description"; "is_active"])
    by (right; right; now left).
  split; [exact H1 |]. split; [reflexivity |].
  split; [| reflexivity].
  exact (proj1 (update_null_accepted (lax := no_conversion)
                  "is_active"
                  [("description", VStr (str_of "x")); ("is_active", VNone)]
                  H1 eq_refl)).
Defined.


(** ** What a successful validation builds *)

Section Outcome.

Context {lax : LaxCoercions}.

Lemma dict_get_NoDup_In (d : items) (k : string) (v : value) :
  NoDup (keys d) -> In (k, v) d -> dict_get d k = Some v.
Proof.
  induction d as [| [k0 v0] d IH]; simpl; [contradiction |].
  intros Hnd Hin. inversion Hnd as [| ? ? Hnotin Hnd']; subst.
  destruct Hin as [[= -> ->] | Hin].
  - now rewrite String.eqb_refl.
  - destruct (String.eqb_spec k k0) as [-> | _]; [| now apply IH].
    exfalso. apply Hnotin. apply in_map_iff. now exists (k0, v).
Qed.

(** Without errors the pass has stored one value per declared field. *)
Lemma validate_fields_keys (fs : list (string * FieldInfo)) (x : data) :
  fo_errors (validate_fields fs x) = [] ->
  keys (fo_dict (validate_fields fs x)) = map fst fs.
Proof.
  induction fs as [| [k fi] fs IH]; simpl; [reflexivity |].
  destruct (lookup_field x k) as [v |].
  - destruct (validate_field fi v); simpl; [discriminate |].
    intros H. now rewrite IH.
  - destruct (default fi); simpl; [| discriminate].
    intros H. now rewrite IH.
Qed.

Lemma validate_fields_set (fs : list (string * FieldInfo)) (x : data) :
  fo_errors (validate_fields fs x) = [] ->
  fo_set (validate_fields fs x)
  = filter (fun k => match lookup_field x k with
                     | Some _ => true
                     | None => false
                     end) (map fst fs).
Proof.
  induction fs as [| [k fi] fs IH]; simpl; [reflexivity |].
  destruct (lookup_field x k) as [v |].
  - destruct (validate_field fi v); simpl; [discriminate |].
    intros H. now rewrite IH.
  - destruct (default fi); simpl; [| discriminate].
    intros H. now rewrite IH.
Qed.

(** The value stored for a declared field: the validated input, or the
    default when the input has none. *)
Lemma validate_fields_stores
  (fs : list (string * FieldInfo)) (x : data) (k : string) (fi : FieldInfo) :
  In (k, fi) fs ->
  fo_errors (validate_fields fs x) = [] ->
  exists v',
    In (k, v') (fo_dict (validate_fields fs x)) /\
    match lookup_field x k with
    | Some v => validate_field fi v = inr v'
    | None => default fi = Some v'
    end.
Proof.
  induction fs as [| [k0 fi0] fs IH]; simpl; [contradiction |].
  intros Hin Herr.
  assert (Htail : fo_errors (validate_fields fs x) = []).
  { destruct (lookup_field x k0) as [v0 |].
    - destruct (validate_field fi0 v0); simpl in Herr;
        [discriminate | exact Herr].
    - destruct (default fi0); simpl in Herr; [exact Herr | discriminate]. }
  destruct Hin as [[= -> ->] | Hin].
  - destruct (lookup_field x k) as [v |].
    + destruct (validate_field fi v) as [e | v']; simpl in *;
        [discriminate |].
      exists v'. split; [now left | reflexivity].
    + destruct (default fi) as [dv |]; simpl in *; [| discriminate].
      exists dv. split; [now left | reflexivity].
  - destruct (IH Hin Htail) as [v' [Hv' Hm]].
    exists v'. split; [| exact Hm].
    destruct (lookup_field x k0) as [v0 |].
    + destruct (validate_field fi0 v0); simpl; [exact Hv' | now right].
    + destruct (default fi0); simpl; [now right | exact Hv'].
Qed.

(** The same, read through [getattr], for a model whose field names are
    distinct. *)
Lemma instance_field
  (m : ModelSchema) (x : data) (o : Instance) (k : string) (fi : FieldInfo) :
  NoDup (field_names m) -> In (k, fi) (model_fields m) ->
  validate_model m x = inr o ->
  exists v',
    getattr o k = Some v' /\
    match lookup_field x k with
    | Some v => validate_field fi v = inr v'
    | None => default fi = Some v'
    end.
Proof.
  intros Hnd Hin Hp.
  destruct (validate_model_inr m x o Hp) as [Herr ->].
  apply app_eq_nil in Herr. destruct Herr as [Herr _].
  destruct (validate_fields_stores _ x k fi Hin Herr) as [v' [Hv' Hm]].
  exists v'. split; [| exact Hm].
  unfold getattr. cbn [inst_dict].
  apply dict_get_NoDup_In; [| exact Hv'].
  now rewrite validate_fields_keys.
Qed.

(** *** What the field validators return *)

Lemma validate_int_inr (v v' : value) :
  validate_int v = inr v' -> exists z, v' = VInt z.
Proof.
  destruct v; simpl; try discriminate.
  - intros [= <-]. eexists; reflexivity.
  - intros [= <-]. eexists; reflexivity.
  - destruct (int_of_str s); [| discriminate].
    intros [= <-]. eexists; reflexivity.
Qed.

Lemma validate_datetime_inr (v v' : value) :
  validate_datetime v = inr v' -> exists d, v' = VDatetime d.
Proof.
  destruct v; simpl; try discriminate.
  - destruct (datetime_of_int z); [discriminate |].
    intros [= <-]. eexists; reflexivity.
  - destruct (datetime_of_str s); [discriminate |].
    intros [= <-]. eexists; reflexivity.
  - intros [= <-]. eexists; reflexivity.
Qed.

Lemma validate_str_bounds (fi : FieldInfo) (s : str) (v' : value) :
  validate_str fi (VStr s) = inr v' ->
  (forall n, min_length fi = Some n -> n <= len s) /\
  (forall n, max_length fi = Some n -> len s <= n).
Proof.
  unfold validate_str, too_short, too_long.
  destruct (min_length fi) as [lo |], (max_length fi) as [hi |];
    repeat match goal with
      | |- context [Nat.ltb ?a ?b] => destruct (Nat.ltb_spec a b)
      end; try discriminate; intros _;
    split; intros n [= <-]; assumption.
Qed.

(** An accepted value conforms to the declaration of its field. *)
Lemma validate_field_conforms (fi : FieldInfo) (v v' : value) :
  validate_field fi v = inr v' -> conforms fi v'.
Proof.
  unfold validate_field, conforms, of_declared_type, within_bounds.
  destruct (nullable fi && is_none v)%bool eqn:Hn.
  - intros [= <-]. apply andb_true_iff in Hn. destruct Hn as [-> _].
    split; [reflexivity | discriminate].
  - destruct (field_type fi).
    + intros H. destruct (validate_str_inr fi v v' H) as [-> [s ->]].
      split; [apply orb_true_r |].
      intros s' [= <-]. exact (validate_str_bounds fi s _ H).
    + intros H. destruct (validate_bool_inr v v' H) as [b ->].
      split; [apply orb_true_r | discriminate].
    + intros H. destruct (validate_int_inr v v' H) as [z ->].
      split; [apply orb_true_r | discriminate].
    + intros H. destruct (validate_datetime_inr v v' H) as [d ->].
      split; [apply orb_true_r | discriminate].
Qed.

(** A value that already has the declared type is returned as it is. *)
Lemma validate_field_typed (fi : FieldInfo) (v v' : value) :
  of_declared_type fi v = true ->
  validate_field fi v = inr v' -> v' = v.
Proof.
  unfold of_declared_type, validate_field.
  destruct (nullable fi && is_none v)%bool eqn:Hn.
  - intros _ [= <-]. apply andb_true_iff in Hn. destruct Hn as [_ Hn].
    now destruct v.
  - simpl. destruct (field_type fi), v; try discriminate; intros _.
    + intros H. now destruct (validate_str_inr _ _ _ H).
    + now intros [= <-].
    + now intros [= <-].
    + now intros [= <-].
Qed.

(** Validating an accepted value again returns it. *)
Lemma validate_field_again (fi : FieldInfo) (v v' : value) :
  validate_field fi v = inr v' -> validate_field fi v' = inr v'.
Proof.
  unfold validate_field.
  destruct (nullable fi && is_none v)%bool eqn:Hn.
  - intros [= <-]. apply andb_true_iff in Hn. destruct Hn as [-> _].
    reflexivity.
  - destruct (field_type fi); intros H.
    + destruct (validate_str_inr fi v v' H) as [-> [s ->]].
      now rewrite andb_false_r.
    + destruct (validate_bool_inr v v' H) as [b ->].
      now rewrite andb_false_r.
    + destruct (validate_int_inr v v' H) as [z ->].
      now rewrite andb_false_r.
    + destruct (validate_datetime_inr v v' H) as [d ->].
      now rewrite andb_false_r.
Qed.

Lemma field_names_distinct (m : ModelSchema) :
  In m [Schema.ExampleCreate; Schema.ExampleUpdate; Schema.ExampleRead] ->
  NoDup (field_names m).
Proof.
  intros [<- | [<- | [<- | []]]];
    repeat constructor; cbn; intuition discriminate.
Qed.

End Outcome.

(** ** Instances of the three shapes *)

Section Instances.

Context {lax : LaxCoercions}.

Lemma validate_model_shape (m : ModelSchema) (x : data) (o : Instance) :
  validate_model m x = inr o ->
  inst_class o = cls_name m /\
  keys (inst_dict o) = field_names m /\
  inst_fields_set o = supplied m x.
Proof.
  intros Hp.
  destruct (validate_model_inr m x o Hp) as [Herr ->].
  apply app_eq_nil in Herr. destruct Herr as [Herr _].
  cbn [inst_class inst_dict inst_fields_set].
  split; [reflexivity |]. split.
  - now apply validate_fields_keys.
  - now apply validate_fields_set.
Qed.


(** X2. A supplied value that already has the declared type of its field
    is stored unchanged: no string is trimmed or cut, no boolean, integer
    or datetime is altered. *)
Theorem typed_value_stored_unchanged
  (m : ModelSchema) (x : data) (o : Instance)
  (k : string) (fi : FieldInfo) (v : value) :
  In m [Schema.ExampleCreate; Schema.ExampleUpdate; Schema.ExampleRead] ->
  validate_model m x = inr o ->
  In (k, fi) (model_fields m) ->
  lookup_field x k = Some v -> of_declared_type fi v = true ->
  getattr o k = Some v.
Proof.
  intros Hm Hp Hin Hk Ht.
  destruct (instance_field m x o k fi (field_names_distinct m Hm) Hin Hp)
    as [v' [Hget Hv]].
  rewrite Hk in Hv. now rewrite (validate_field_typed fi v v' Ht Hv) in Hget.
Qed.

(** X3. A declared field that the input does not hold takes the default
    of its declaration and is not recorded as supplied. *)
Theorem absent_field_defaulted
  (m : ModelSchema) (x : data) (o : Instance) (k : string) (fi : FieldInfo) :
  In m [Schema.ExampleCreate; Schema.ExampleUpdate; Schema.ExampleRead] ->
  validate_model m x = inr o ->
  In (k, fi) (model_fields m) -> lookup_field x k = None ->
  getattr o k = default fi /\ ~ In k (inst_fields_set o).
Proof.
  intros Hm Hp Hin Hk.
  destruct (instance_field m x o k fi (field_names_distinct m Hm) Hin Hp)
    as [v' [Hget Hv]].
  rewrite Hk in Hv. split; [congruence |].
  destruct (validate_model_inr m x o Hp) as [Herr ->].
  apply app_eq_nil in Herr. destruct Herr as [Herr _].
  cbn [inst_fields_set]. rewrite (validate_fields_set _ x Herr).
  intros Hs. apply filter_In in Hs. destruct Hs as [_ Hs].
  now rewrite Hk in Hs.
Qed.

(** Every stored value conforms to the declaration of its field, the
    defaults of the three models included. *)
Lemma instance_conforms
  (m : ModelSchema) (x : data) (o : Instance) (k : string) (fi : FieldInfo) :
  In m [Schema.ExampleCreate; Schema.ExampleUpdate; Schema.ExampleRead] ->
  validate_model m x = inr o -> In (k, fi) (model_fields m) ->
  exists v, getattr o k = Some v /\ conforms fi v.
Proof.
  intros Hm Hp Hin.
  destruct (instance_field m x o k fi (field_names_distinct m Hm) Hin Hp)
    as [v' [Hget Hv]].
  exists v'. split; [exact Hget |].
  destruct (lookup_field x k) as [v |];
    [exact (validate_field_conforms fi v v' Hv) |].
  destruct Hm as [<- | [<- | [<- | []]]]; cbn in Hin;
    repeat match goal with
      | H : _ \/ _ |- _ => destruct H as [H | H]
      | H : False |- _ => contradiction
      | H : (_, _) = (_, _) |- _ => injection H as <- <-
      end;
    cbn in Hv; try discriminate; injection Hv as <-;
    (split; [reflexivity | discriminate]).
Qed.

Lemma conforms_str_or_none (fi : FieldInfo) (v : value) (lo hi : nat) :
  field_type fi = TStr -> max_length fi = Some hi ->
  (forall n, min_length fi = Some n -> lo <= n) ->
  (min_length fi = None -> lo = 0) ->
  conforms fi v ->
  (nullable fi = true /\ v = VNone) \/
  exists s, v = VStr s /\ lo <= len s <= hi.
Proof.
  intros Ht Hmax Hmin Hmin0 [Hty Hb].
  unfold of_declared_type in Hty. rewrite Ht in Hty.
  destruct v; try (destruct (nullable fi); discriminate).
  - left. split; [| reflexivity]. now destruct (nullable fi).
  - right. exists s. split; [reflexivity |].
    destruct (Hb s eq_refl) as [Hlo Hhi]. split; [| now apply Hhi].
    destruct (min_length fi) as [n |] eqn:E.
    + specialize (Hlo n eq_refl). specialize (Hmin n eq_refl). lia.
    + rewrite (Hmin0 eq_refl). lia.
Qed.

Lemma conforms_bool_or_none (fi : FieldInfo) (v : value) :
  field_type fi = TBool -> conforms fi v ->
  (nullable fi = true /\ v = VNone) \/ exists b, v = VBool b.
Proof.
  intros Ht [Hty _]. unfold of_declared_type in Hty. rewrite Ht in Hty.
  destruct v; try (destruct (nullable fi); discriminate).
  - left. split; [| reflexivity]. now destruct (nullable fi).
  - right. now exists b.
Qed.

(** X4. The invariant of the base holds of every Create and every Read
    instance: the name has 1 to 100 characters, the description is [None]
    or has at most 500 characters, and [is_active] is a boolean. *)
Theorem base_invariant_holds (m : ModelSchema) (x : data) (o : Instance) :
  In m [Schema.ExampleCreate; Schema.ExampleRead] ->
  validate_model m x = inr o -> base_invariant o.
Proof.
  intros Hm Hp.
  assert (Hm3 : In m [Schema.ExampleCreate; Schema.ExampleUpdate;
                      Schema.ExampleRead])
    by (destruct Hm as [<- | [<- | []]]; cbn; tauto).
  assert (Hn : In ("name", Schema.name) (model_fields m))
    by (destruct Hm as [<- | [<- | []]]; cbn; tauto).
  assert (Hd : In ("description", Schema.description) (model_fields m))
    by (destruct Hm as [<- | [<- | []]]; cbn; tauto).
  assert (Ha : In ("is_active", Schema.is_active) (model_fields m))
    by (destruct Hm as [<- | [<- | []]]; cbn; tauto).
  destruct (instance_conforms m x o _ _ Hm3 Hp Hn) as [vn [Gn Cn]].
  destruct (instance_conforms m x o _ _ Hm3 Hp Hd) as [vd [Gd Cd]].
  destruct (instance_conforms m x o _ _ Hm3 Hp Ha) as [va [Ga Ca]].
  split; [| split].
  - destruct (conforms_str_or_none Schema.name vn 1 100 eq_refl eq_refl)
      as [[Hnull _] | [s [-> Hlen]]]; try exact Cn.
    + intros n [= <-]. lia.
    + discriminate.
    + discriminate Hnull.
    + now exists s.
  - destruct (conforms_str_or_none Schema.description vd 0 500
                eq_refl eq_refl)
      as [[_ ->] | [t [-> Hlen]]]; try exact Cd.
    + discriminate.
    + reflexivity.
    + now left.
    + right. exists t. split; [exact Gd | lia].
  - destruct (conforms_bool_or_none Schema.is_active va eq_refl Ca)
      as [[Hnull _] | [b ->]]; [discriminate Hnull | now exists b].
Qed.

(** X5. The invariant of the patch holds of every Update instance: each
    field is [None] or satisfies the constraint it has in the base. *)
Theorem patch_invariant_holds (d : items) (o : Instance) :
  parse_update d = inr o -> patch_invariant o.
Proof.
  intros Hp. unfold parse_update in Hp.
  assert (Hm3 : In Schema.ExampleUpdate
                  [Schema.ExampleCreate; Schema.ExampleUpdate;
                   Schema.ExampleRead]) by (cbn; tauto).
  destruct (instance_conforms _ _ o "name" _ Hm3 Hp (or_introl eq_refl))
    as [vn [Gn Cn]].
  destruct (instance_conforms _ _ o "description" _ Hm3 Hp
              (or_intror (or_introl eq_refl))) as [vd [Gd Cd]].
  destruct (instance_conforms _ _ o "is_active" _ Hm3 Hp
              (or_intror (or_intror (or_introl eq_refl)))) as [va [Ga Ca]].
  split; [| split].
  - match type of Cn with
    | conforms ?fi _ =>
        destruct (conforms_str_or_none fi vn 1 100 eq_refl eq_refl)
          as [[_ ->] | [s [-> Hlen]]]; try exact Cn
    end.
    + intros n [= <-]. lia.
    + discriminate.
    + now left.
    + right. now exists s.
  - match type of Cd with
    | conforms ?fi _ =>
        destruct (conforms_str_or_none fi vd 0 500 eq_refl eq_refl)
          as [[_ ->] | [t [-> Hlen]]]; try exact Cd
    end.
    + discriminate.
    + reflexivity.
    + now left.
    + right. exists t. split; [exact Gd | lia].
  - match type of Ca with
    | conforms ?fi _ =>
        destruct (conforms_bool_or_none fi va eq_refl Ca)
          as [[_ ->] | [b ->]]; [now left | right; now exists b]
    end.
Qed.

(** X6. In every Read instance [id] is an integer and [created_at] and
    [updated_at] are datetimes, whatever the input held and whichever
    conversion produced them. *)
Theorem server_fields_typed_holds (x : data) (o : Instance) :
  parse_read x = inr o -> server_fields_typed o.
Proof.
  intros Hp. unfold parse_read in Hp.
  assert (Hm3 : In Schema.ExampleRead
                  [Schema.ExampleCreate; Schema.ExampleUpdate;
                   Schema.ExampleRead]) by (cbn; tauto).
  destruct (instance_conforms _ _ o "id" _ Hm3 Hp
              ltac:(cbn; tauto)) as [vi [Gi [Ci _]]].
  destruct (instance_conforms _ _ o "created_at" _ Hm3 Hp
              ltac:(cbn; tauto)) as [vc [Gc [Cc _]]].
  destruct (instance_conforms _ _ o "updated_at" _ Hm3 Hp
              ltac:(cbn; tauto)) as [vu [Gu [Cu _]]].
  destruct vi; try discriminate Ci.
  destruct vc; try discriminate Cc.
  destruct vu; try discriminate Cu.
  now exists z, d, d0.
Qed.

End Instances.

(** ** When a mapping is accepted *)

Section Acceptance.

Context {lax : LaxCoercions}.

Lemma field_valid_iff (x : data) (k : string) (fi : FieldInfo) :
  field_invalid x (k, fi) = false <->
  (lookup_field x k = None -> default fi <> None) /\
  (forall v, lookup_field x k = Some v ->
             exists v', validate_field fi v = inr v').
Proof.
  unfold field_invalid. cbn [fst snd].
  destruct (lookup_field x k) as [v |].
  - destruct (validate_field fi v) as [e | v'] eqn:Hv; split.
    + discriminate.
    + intros [_ H]. destruct (H v eq_refl) as [v' Hv']. congruence.
    + intros _. split; [discriminate |].
      intros v0 [= <-]. now exists v'.
    + reflexivity.
  - destruct (default fi); split.
    + intros _. split; [intros _; discriminate | discriminate].
    + reflexivity.
    + discriminate.
    + intros [H _]. exfalso. now apply H.
Qed.

Lemma unknown_keys_nil_iff (m : ModelSchema) (d : items) :
  unknown_keys m (Dict d) = [] <-> declared_keys_only m d.
Proof.
  unfold unknown_keys, declared_keys_only. cbn [data_items].
  rewrite filter_nil_iff. split; intros H k Hk; specialize (H k Hk).
  - apply negb_false_iff in H.
    destruct (in_dec string_dec k (field_names m)) as [Hin | Hnin];
      [exact Hin |].
    apply not_declared_iff in Hnin. congruence.
  - apply negb_false_iff.
    destruct (is_field m k) eqn:E; [reflexivity |].
    apply not_declared_iff in E. contradiction.
Qed.

(** A mapping that the closed model accepts has declared keys only. *)
Lemma update_ok_declared (d : items) :
  is_ok (validate_model Schema.ExampleUpdate (Dict d)) = true ->
  declared_keys_only Schema.ExampleUpdate d.
Proof.
  rewrite (validate_model_ok_iff Schema.ExampleUpdate (Dict d) I).
  unfold invalid_fields. cbn [extra_forbid Schema.ExampleUpdate].
  intros H. apply app_eq_nil in H. destruct H as [_ Hu].
  now apply unknown_keys_nil_iff.
Qed.

(** X7. [parse_update] accepts a mapping exactly when every key is one of
    the three declared fields and every value is accepted by the validator
    of its field; no field has to be there. *)
Theorem parse_update_accepts (d : items) :
  is_ok (parse_update d) = true <->
  declared_keys_only Schema.ExampleUpdate d /\
  (forall k fi v,
     In (k, fi) (model_fields Schema.ExampleUpdate) ->
     dict_get d k = Some v -> exists v', validate_field fi v = inr v').
Proof.
  unfold parse_update.
  rewrite (validate_model_ok_iff Schema.ExampleUpdate (Dict d) I).
  unfold invalid_fields. cbn [extra_forbid Schema.ExampleUpdate].
  rewrite <- unknown_keys_nil_iff. split.
  - intros H. apply app_eq_nil in H. destruct H as [Hf Hu].
    split; [exact Hu |].
    intros k fi v Hin Hk.
    apply map_eq_nil in Hf.
    pose proof (proj1 (filter_nil_iff _ _) Hf (k, fi) Hin) as Hv.
    apply field_valid_iff in Hv. now apply Hv.
  - intros [Hu Hv]. rewrite Hu, app_nil_r.
    assert (filter (field_invalid (Dict d))
              (model_fields Schema.ExampleUpdate) = []) as ->;
      [| reflexivity].
    apply filter_nil_iff. intros [k fi] Hin. apply field_valid_iff. split.
    + intros _. cbn in Hin.
      destruct Hin as [[= <- <-] | [[= <- <-] | [[= <- <-] | []]]];
        discriminate.
    + intros v Hk. now apply (Hv k fi v Hin).
Qed.

(** X8. [parse_create] accepts a mapping exactly when [name] is there and
    every value under a declared field is accepted by the validator of
    that field; keys outside the declared fields play no part. *)
Theorem parse_create_accepts (d : items) :
  is_ok (parse_create d) = true <->
  dict_get d "name" <> None /\
  (forall k fi v,
     In (k, fi) (model_fields Schema.ExampleCreate) ->
     dict_get d k = Some v -> exists v', validate_field fi v = inr v').
Proof.
  unfold parse_create.
  rewrite (open_model_ok_iff Schema.ExampleCreate (Dict d) I eq_refl).
  split.
  - intros H. split.
    + intros Habs.
      pose proof (H ("name", Schema.name) (or_introl eq_refl)) as Hn.
      apply field_valid_iff in Hn. destruct Hn as [Hn _].
      now apply (Hn Habs).
    + intros k fi v Hin Hk. specialize (H (k, fi) Hin).
      apply field_valid_iff in H. now apply H.
  - intros [Hn Hv] [k fi] Hin. apply field_valid_iff. split.
    + intros Habs. cbn in Hin.
      destruct Hin as [[= <- <-] | [[= <- <-] | [[= <- <-] | []]]];
        try discriminate. contradiction.
    + intros v Hk. now apply (Hv k fi v Hin).
Qed.

(** Two inputs that agree on the declared names give the same values and
    the same record of supplied fields, with errors on the same fields. *)
Lemma validate_fields_agree (fs : list (string * FieldInfo)) (x y : data) :
  (forall k, In k (map fst fs) -> lookup_field x k = lookup_field y k) ->
  fo_dict (validate_fields fs x) = fo_dict (validate_fields fs y) /\
  fo_set (validate_fields fs x) = fo_set (validate_fields fs y) /\
  (fo_errors (validate_fields fs x) = [] <->
   fo_errors (validate_fields fs y) = []).
Proof.
  induction fs as [| [k fi] fs IH]; intros H; simpl; [tauto |].
  destruct IH as [Hd [Hs He]]; [intros k' Hk'; apply H; now right |].
  rewrite <- (H k (or_introl eq_refl)).
  destruct (lookup_field x k) as [v |].
  - destruct (validate_field fi v); simpl; rewrite ?Hd, ?Hs;
      (split; [reflexivity | split; [reflexivity |]]);
      [split; discriminate | exact He].
  - destruct (default fi); simpl; rewrite ?Hd, ?Hs;
      (split; [reflexivity | split; [reflexivity |]]);
      [exact He | split; discriminate].
Qed.

Lemma open_model_agree (m : ModelSchema) (x y : data) (o : Instance) :
  readable m x -> readable m y -> extra_forbid m = false ->
  (forall k, In k (field_names m) -> lookup_field x k = lookup_field y k) ->
  validate_model m x = inr o -> validate_model m y = inr o.
Proof.
  intros Hx Hy Hf H.
  rewrite (validate_model_readable m x Hx), (validate_model_readable m y Hy).
  unfold all_errors, extra_errors. rewrite Hf, !app_nil_r.
  destruct (validate_fields_agree (model_fields m) x y H) as [Hd [Hs He]].
  rewrite Hd, Hs.
  destruct (fo_errors (validate_fields (model_fields m) x)) eqn:Ex;
    [| discriminate].
  now rewrite (proj1 He eq_refl).
Qed.


End Acceptance.

(** ** Round trips *)

Section RoundTrips.

Context {lax : LaxCoercions}.

(** Validating the stored values again, from any mapping that holds them
    under their names, stores the same values; every field is then
    supplied. *)
Lemma validate_fields_again
  (fs : list (string * FieldInfo)) (x : data) (d : items) :
  fo_errors (validate_fields fs x) = [] ->
  (forall k fi dv, In (k, fi) fs -> default fi = Some dv ->
                   validate_field fi dv = inr dv) ->
  (forall k v, In (k, v) (fo_dict (validate_fields fs x)) ->
               dict_get d k = Some v) ->
  validate_fields fs (Dict d)
  = mk_outcome [] (fo_dict (validate_fields fs x)) (map fst fs).
Proof.
  induction fs as [| [k fi] fs IH]; simpl; [reflexivity |].
  intros Herr Hdef Hd.
  change (lookup_field (Dict d) k) with (dict_get d k).
  destruct (lookup_field x k) as [v |] eqn:Hk.
  - destruct (validate_field fi v) as [e | v'] eqn:Hv; simpl in *;
      [discriminate |].
    rewrite (Hd k v' (or_introl eq_refl)).
    rewrite (validate_field_again fi v v' Hv).
    rewrite IH; [reflexivity | exact Herr | |].
    + intros k0 fi0 dv Hin. apply (Hdef k0 fi0 dv). now right.
    + intros k0 v0 Hin. apply Hd. now right.
  - destruct (default fi) as [dv |] eqn:Hdv; simpl in *; [| discriminate].
    rewrite (Hd k dv (or_introl eq_refl)).
    rewrite (Hdef k fi dv (or_introl eq_refl) Hdv).
    rewrite IH; [reflexivity | exact Herr | |].
    + intros k0 fi0 dv0 Hin. apply (Hdef k0 fi0 dv0). now right.
    + intros k0 v0 Hin. apply Hd. now right.
Qed.

Lemma defaults_valid (m : ModelSchema) (k : string) (fi : FieldInfo)
  (dv : value) :
  In m [Schema.ExampleCreate; Schema.ExampleUpdate; Schema.ExampleRead] ->
  In (k, fi) (model_fields m) -> default fi = Some dv ->
  validate_field fi dv = inr dv.
Proof.
  intros Hm Hin Hdv.
  destruct Hm as [<- | [<- | [<- | []]]]; cbn in Hin;
    repeat match goal with
      | H : _ \/ _ |- _ => destruct H as [H | H]
      | H : False |- _ => contradiction
      | H : (_, _) = (_, _) |- _ => injection H as <- <-
      end;
    cbn in Hdv; try discriminate; injection Hdv as <-; reflexivity.
Qed.

Lemma extra_errors_declared (m : ModelSchema) (d : items) :
  keys d = field_names m -> extra_errors m d = [].
Proof.
  intros Hk. unfold extra_errors. destruct (extra_forbid m); [| reflexivity].
  assert (filter (fun kv : string * value => negb (is_field m (fst kv))) d
          = []) as ->; [| reflexivity].
  apply filter_nil_iff. intros [k v] Hin. cbn [fst].
  apply negb_false_iff.
  destruct (is_field m k) eqn:E; [reflexivity |].
  apply not_declared_iff in E. exfalso. apply E. rewrite <- Hk.
  apply in_map_iff. now exists (k, v).
Qed.

(** X10. Dumping an instance of any of the three models and validating
    the dump again succeeds with the same field values; every field is
    then recorded as supplied. *)
Theorem dump_round_trip (m : ModelSchema) (x : data) (o : Instance) :
  In m [Schema.ExampleCreate; Schema.ExampleUpdate; Schema.ExampleRead] ->
  validate_model m x = inr o ->
  validate_model m (Dict (model_dump o))
  = inr (mk_instance (cls_name m) (inst_dict o) (field_names m)).
Proof.
  intros Hm Hp.
  destruct (validate_model_inr m x o Hp) as [Herr ->].
  apply app_eq_nil in Herr. destruct Herr as [Herr _].
  unfold model_dump. cbn [inst_dict].
  rewrite (validate_model_readable m (Dict _) I). unfold all_errors.
  cbn [data_items].
  pose proof (validate_fields_keys _ x Herr) as Hkeys.
  rewrite (extra_errors_declared m _ Hkeys).
  rewrite (validate_fields_again (model_fields m) x _ Herr).
  - reflexivity.
  - intros k fi dv. now apply defaults_valid.
  - intros k v Hin. apply dict_get_NoDup_In; [| exact Hin].
    rewrite Hkeys. now apply field_names_distinct.
Qed.

(** X11. The patch of a Create instance, the supplied fields alone,
    parses back to that very instance, record of supplied fields included. *)
Theorem parse_create_patch_round_trip (d : items) (o : Instance) :
  parse_create d = inr o ->
  parse_create (model_dump_exclude_unset o) = inr o.
Proof.
  unfold parse_create, validate_model. cbn -[validate_field].
  destruct (dict_get d "name") as [v1 |];
    [destruct (validate_field Schema.name v1) as [e1 | n] eqn:V1 |];
    (destruct (dict_get d "description") as [v2 |];
     [destruct (validate_field Schema.description v2) as [e2 | t] eqn:V2 |]);
    (destruct (dict_get d "is_active") as [v3 |];
     [destruct (validate_field Schema.is_active v3) as [e3 | a] eqn:V3 |]);
    cbn -[validate_field]; try discriminate; intros [= <-];
    unfold model_dump_exclude_unset; cbn -[validate_field];
    rewrite ?(validate_field_again _ _ _ V1),
            ?(validate_field_again _ _ _ V2),
            ?(validate_field_again _ _ _ V3);
    reflexivity.
Qed.

(** X12. The patch of an Update instance parses back to that very
    instance: what was supplied stays supplied, what was left out stays
    left out. *)
Theorem parse_update_patch_round_trip (d : items) (o : Instance) :
  parse_update d = inr o ->
  parse_update (model_dump_exclude_unset o) = inr o.
Proof.
  unfold parse_update, validate_model.
  cbn [from_attributes Schema.ExampleUpdate data_items].
  destruct (extra_errors Schema.ExampleUpdate d) as [| x xs] eqn:Hx.
  - rewrite app_nil_r. cbn -[validate_field].
    destruct (dict_get d "name") as [v1 |];
      [destruct (validate_field _ v1) as [e1 | n] eqn:V1 |];
      (destruct (dict_get d "description") as [v2 |];
       [destruct (validate_field _ v2) as [e2 | t] eqn:V2 |]);
      (destruct (dict_get d "is_active") as [v3 |];
       [destruct (validate_field _ v3) as [e3 | a] eqn:V3 |]);
      cbn -[validate_field]; try discriminate; intros [= <-];
      unfold model_dump_exclude_unset; cbn -[validate_field];
      rewrite ?(validate_field_again _ _ _ V1),
              ?(validate_field_again _ _ _ V2),
              ?(validate_field_again _ _ _ V3);
      reflexivity.
  - intros H. exfalso.
    destruct (fo_errors (validate_fields
                (model_fields Schema.ExampleUpdate) (Dict d)));
      discriminate H.
Qed.

(** X13. The patch of an Update instance holds exactly the keys of the
    mapping it was parsed from. *)
Theorem patch_keys (d : items) (o : Instance) (k : string) :
  parse_update d = inr o ->
  (In k (keys (model_dump_exclude_unset o)) <-> In k (keys d)).
Proof.
  intros Hp.
  unfold parse_update in Hp.
  assert (Hdecl : declared_keys_only Schema.ExampleUpdate d)
    by (apply update_ok_declared; now rewrite Hp).
  destruct (validate_model_shape _ _ _ Hp) as [_ [Hkeys Hset]].
  assert (Hpatch : In k (keys (model_dump_exclude_unset o)) <->
                   dict_get (model_dump_exclude_unset o) k <> None).
  { pose proof (dict_get_None_keys (model_dump_exclude_unset o) k).
    destruct (in_dec string_dec k (keys (model_dump_exclude_unset o)));
      tauto. }
  assert (Hd : In k (keys d) <-> dict_get d k <> None).
  { pose proof (dict_get_None_keys d k).
    destruct (in_dec string_dec k (keys d)); tauto. }
  rewrite Hpatch, Hd, patch_entry.
  destruct (existsb (String.eqb k) (inst_fields_set o)) eqn:E.
  - apply supplied_iff in E. rewrite Hset in E.
    apply filter_In in E. destruct E as [Hin E].
    unfold lookup_field in E. cbn [data_items] in E.
    assert (Hget : getattr o k <> None).
    { unfold getattr. intros Habs. apply dict_get_None_keys in Habs.
      rewrite Hkeys in Habs. contradiction. }
    destruct (dict_get d k); [| discriminate].
    split; [discriminate | intros _; exact Hget].
  - split; [intros H; now contradiction H |].
    intros Hk. exfalso.
    assert (In k (inst_fields_set o)); [| apply supplied_iff in H; congruence].
    rewrite Hset. apply filter_In. split.
    + apply Hdecl. now apply Hd.
    + unfold lookup_field. cbn [data_items].
      destruct (dict_get d k); [reflexivity | now contradiction Hk].
Qed.

End RoundTrips.

(** ** What the errors can be *)

Section ErrorKinds.

Context {lax : LaxCoercions}.

(** A field validator reports a fault of the value, never a missing
    field, an unknown key or an unusable input. *)
Lemma validate_field_kind (fi : FieldInfo) (v : value) (e : error_type) :
  validate_field fi v = inl e ->
  e <> Missing /\ e <> ExtraForbidden /\ forall c, e <> ModelType c.
Proof.
  unfold validate_field.
  destruct (nullable fi && is_none v)%bool; [discriminate |].
  destruct (field_type fi), v; simpl;
    repeat match goal with
      | |- context [match ?t with _ => _ end] => destruct t
      end;
    try discriminate; intros [= <-]; repeat split; try intros c;
    discriminate.
Qed.

Lemma validate_fields_kinds (fs : list (string * FieldInfo)) (x : data) :
  Forall (fun e => err_type e <> ExtraForbidden /\
                   (forall c, err_type e <> ModelType c) /\
                   (err_type e = Missing ->
                    exists k fi, In (k, fi) fs /\ default fi = None))
         (fo_errors (validate_fields fs x)).
Proof.
  induction fs as [| [k fi] fs IH]; simpl; [constructor |].
  assert (IH' : Forall (fun e => err_type e <> ExtraForbidden /\
                   (forall c, err_type e <> ModelType c) /\
                   (err_type e = Missing ->
                    exists k0 fi0, ((k, fi) = (k0, fi0) \/ In (k0, fi0) fs)
                                   /\ default fi0 = None))
                  (fo_errors (validate_fields fs x))).
  { eapply Forall_impl; [| exact IH]. cbn beta.
    intros e [H1 [H2 H3]]. split; [exact H1 |]. split; [exact H2 |].
    intros Hm. destruct (H3 Hm) as [k0 [fi0 [Hin Hd]]].
    exists k0, fi0. split; [now right | exact Hd]. }
  destruct (lookup_field x k) as [v |].
  - destruct (validate_field fi v) as [e | v'] eqn:Hv; simpl; [| exact IH'].
    constructor; [| exact IH']. cbn.
    destruct (validate_field_kind fi v e Hv) as [H1 [H2 H3]].
    split; [exact H2 |]. split; [exact H3 |]. intros Hm. contradiction.
  - destruct (default fi) eqn:Hd; simpl; [exact IH' |].
    constructor; [| exact IH']. cbn.
    split; [discriminate |]. split; [discriminate |].
    intros _. exists k, fi. split; [now left | exact Hd].
Qed.

(** X14. Each shape has its own kinds of error.  [parse_update] never
    reports a missing field; [parse_create] and [parse_read] never report
    an unknown key; and none of the three, on an input it can read,
    reports that the input as a whole is unusable. *)
Theorem error_kinds_by_shape :
  (forall d errs,
     parse_update d = inl errs ->
     Forall (fun e => err_type e <> Missing /\
                      forall c, err_type e <> ModelType c) errs) /\
  (forall d errs,
     parse_create d = inl errs ->
     Forall (fun e => err_type e <> ExtraForbidden /\
                      forall c, err_type e <> ModelType c) errs) /\
  (forall x errs,
     parse_read x = inl errs ->
     Forall (fun e => err_type e <> ExtraForbidden /\
                      forall c, err_type e <> ModelType c) errs).
Proof.
  split; [| split].
  - intros d errs Hp.
    destruct (validate_model_inl Schema.ExampleUpdate (Dict d) errs I Hp)
      as [-> _].
    apply Forall_app. split.
    + eapply Forall_impl; [| apply validate_fields_kinds]. cbn beta.
      intros e [_ [H2 H3]]. split; [| exact H2].
      intros Hm. destruct (H3 Hm) as [k [fi [Hin Hd]]]. cbn in Hin.
      destruct Hin as [[= <- <-] | [[= <- <-] | [[= <- <-] | []]]];
        discriminate.
    + unfold extra_errors. cbn [extra_forbid Schema.ExampleUpdate].
      apply Forall_forall. intros e He. apply in_map_iff in He.
      destruct He as [kv [<- _]]. cbn. split; [discriminate |].
      intros c. discriminate.
  - intros d errs Hp.
    destruct (validate_model_inl Schema.ExampleCreate (Dict d) errs I Hp)
      as [-> _].
    unfold all_errors, extra_errors.
    cbn [extra_forbid Schema.ExampleCreate]. rewrite app_nil_r.
    eapply Forall_impl; [| apply validate_fields_kinds]. cbn beta.
    intros e [H1 [H2 _]]. now split.
  - intros x errs Hp.
    destruct (validate_model_inl Schema.ExampleRead x errs
                (readable_read x) Hp) as [-> _].
    unfold all_errors, extra_errors.
    cbn [extra_forbid Schema.ExampleRead]. rewrite app_nil_r.
    eapply Forall_impl; [| apply validate_fields_kinds]. cbn beta.
    intros e [H1 [H2 _]]. now split.
Qed.

Lemma filter_length_le {A : Type} (p : A -> bool) (l : list A) :
  List.length (filter p l) <= List.length l.
Proof.
  induction l as [| a l IH]; simpl; [lia |].
  destruct (p a); simpl; lia.
Qed.

(** X15. An error is never empty and never longer than the model allows:
    at most 3 entries for Create, at most 6 for Read, and for Update at
    most 3 plus one per key of the mapping outside the declared fields. *)
Theorem error_size_bounds :
  (forall d errs, parse_create d = inl errs -> 1 <= List.length errs <= 3) /\
  (forall x errs, parse_read x = inl errs -> 1 <= List.length errs <= 6) /\
  (forall d errs,
     parse_update d = inl errs ->
     1 <= List.length errs
     <= 3 + List.length (unknown_keys Schema.ExampleUpdate (Dict d))).
Proof.
  assert (Hgen : forall m x errs,
            readable m x -> validate_model m x = inl errs ->
            1 <= List.length errs
            <= List.length (model_fields m)
               + List.length (if extra_forbid m then unknown_keys m x else [])).
  { intros m x errs Hr Hp.
    destruct (validate_model_inl m x errs Hr Hp) as [-> Hne].
    split.
    - destruct (all_errors m x); [contradiction | simpl; lia].
    - rewrite <- (length_map loc), all_errors_locs, length_map.
      unfold invalid_fields. rewrite length_app, length_map.
      pose proof (filter_length_le (field_invalid x) (model_fields m)).
      lia. }
  split; [| split].
  - intros d errs Hp.
    apply (Hgen Schema.ExampleCreate (Dict d) errs I) in Hp.
    cbn in Hp. lia.
  - intros x errs Hp.
    apply (Hgen Schema.ExampleRead x errs (readable_read x)) in Hp.
    cbn in Hp. lia.
  - intros d errs Hp.
    apply (Hgen Schema.ExampleUpdate (Dict d) errs I) in Hp.
    cbn [extra_forbid Schema.ExampleUpdate model_fields List.length] in Hp.
    exact Hp.
Qed.


(** The Update fields accept whatever the base fields of the same name
    accept, with the same result. *)
Lemma update_field_accepts (k : string) (fb fu : FieldInfo) (v v' : value) :
  In (k, fb) (model_fields Schema.ExampleCreate) ->
  In (k, fu) (model_fields Schema.ExampleUpdate) ->
  validate_field fb v = inr v' -> validate_field fu v = inr v'.
Proof.
  intros Hb Hu. cbn in Hb, Hu.
  destruct Hb as [[= <- <-] | [[= <- <-] | [[= <- <-] | []]]];
    destruct Hu as [[= <-] | [[= <-] | [[= <-] | []]]];
    try discriminate; destruct v; cbn; try discriminate;
    intros H; exact H.
Qed.

(** X17. The patch constrains no more than the base: a mapping that
    [parse_create] accepts and that has no key outside the declared fields
    is accepted by [parse_update], which supplies the same fields and
    stores the same values for them. *)
Theorem create_input_is_update_input (d : items) (oc : Instance) :
  declared_keys_only Schema.ExampleUpdate d ->
  parse_create d = inr oc ->
  exists ou,
    parse_update d = inr ou /\
    inst_fields_set ou = inst_fields_set oc /\
    forall k, In k (inst_fields_set oc) -> getattr ou k = getattr oc k.
Proof.
  intros Hdecl Hc.
  assert (Hx : extra_errors Schema.ExampleUpdate d = []).
  { unfold extra_errors. cbn [extra_forbid Schema.ExampleUpdate].
    apply unknown_keys_nil_iff in Hdecl.
    unfold unknown_keys, keys in Hdecl. cbn [data_items] in Hdecl.
    assert (filter (fun kv : string * value =>
                      negb (is_field Schema.ExampleUpdate (fst kv))) d = [])
      as ->; [| reflexivity].
    apply filter_nil_iff. intros [k v] Hin.
    apply (proj1 (filter_nil_iff _ _) Hdecl k).
    apply in_map_iff. now exists (k, v). }
  revert Hc. unfold parse_create, parse_update, validate_model.
  cbn [from_attributes Schema.ExampleUpdate Schema.ExampleCreate data_items].
  rewrite Hx, app_nil_r. unfold extra_errors.
  cbn [extra_forbid Schema.ExampleCreate]. rewrite app_nil_r.
  cbn -[validate_field].
  destruct (dict_get d "name") as [v1 |];
    [destruct (validate_field Schema.name v1) as [e1 | n] eqn:V1 |];
    (destruct (dict_get d "description") as [v2 |];
     [destruct (validate_field Schema.description v2) as [e2 | t] eqn:V2 |]);
    (destruct (dict_get d "is_active") as [v3 |];
     [destruct (validate_field Schema.is_active v3) as [e3 | a] eqn:V3 |]);
    cbn -[validate_field]; try discriminate; intros [= <-];
    repeat match goal with
      | V : validate_field ?fb ?v = inr ?v'
        |- context [validate_field ?fu ?v] =>
          first
            [ rewrite (update_field_accepts "name" fb fu v v'
                         (or_introl eq_refl) (or_introl eq_refl) V)
            | rewrite (update_field_accepts "description" fb fu v v'
                         (or_intror (or_introl eq_refl))
                         (or_intror (or_introl eq_refl)) V)
            | rewrite (update_field_accepts "is_active" fb fu v v'
                         (or_intror (or_intror (or_introl eq_refl)))
                         (or_intror (or_intror (or_introl eq_refl))) V) ]
      end;
    cbn -[validate_field]; eexists;
    (split; [reflexivity |]; split; [reflexivity |]);
    cbn; intros k Hk;
    repeat match goal with
      | H : _ \/ _ |- _ => destruct H as [<- | H]
      | H : False |- _ => contradiction
      end; reflexivity.
Qed.

End ErrorKinds.


(** ** Inputs of every kind *)

Section WholeInputs.

Context {lax : LaxCoercions}.

Lemma unusable_report_model_type (m : ModelSchema) (i : err_input) :
  unusable_report m [error (ModelType (cls_name m)) [] i].
Proof.
  eexists. split; [reflexivity |]. split; [reflexivity |].
  split; [apply message_of_nonempty | now left].
Qed.

(** An object given to a model that does not read attributes. *)
Lemma validate_model_object_refused
  (m : ModelSchema) (cls : string) (attrs : items) :
  from_attributes m = false ->
  validate_model m (Obj cls attrs)
  = inl [error (ModelType (cls_name m)) [] (InputData (Obj cls attrs))].
Proof. intros E. unfold validate_model. now rewrite E. Qed.

(** C6 (amended).  A failed validation returns one error value and no
    instance.  When the input is one whose fields are read (a mapping,
    or for the Read shape an object that is not itself a Read instance),
    the error has one entry per invalid field, all of them and not only
    the first, in order, each with the path of its field, a message and
    the offending input.  When the input has no fields to read, the error
    has one entry, on the input as a whole, with an empty path.
    [parse_create d], [parse_update d] and [parse_read x] are
    [model_validate] on [Plain (Dict d)] and [Plain x]. *)
Theorem failed_validation_report
  (m : ModelSchema) (i : py_input) (errs : ValidationError) :
  In m [Schema.ExampleCreate; Schema.ExampleUpdate; Schema.ExampleRead] ->
  model_validate m i = inl errs ->
  match fields_input m i with
  | Some x => one_entry_per_invalid_field m x errs
  | None => unusable_report m errs
  end.
Proof.
  intros Hm. pose proof (field_names_distinct m Hm) as Hnd.
  destruct i as [[d | cls attrs] | o | v]; cbn [model_validate fields_input].
  - intros Hp. now apply report_per_field.
  - destruct (from_attributes m) eqn:E.
    + intros Hp. now apply report_per_field.
    + rewrite (validate_model_object_refused m cls attrs E).
      intros [= <-]. apply unusable_report_model_type.
  - destruct (String.eqb (inst_class o) (cls_name m)); [discriminate |].
    destruct (from_attributes m) eqn:E.
    + intros Hp. now apply report_per_field.
    + rewrite (validate_model_object_refused m _ _ E).
      intros [= <-]. apply unusable_report_model_type.
  - intros [= <-]. eexists. split; [reflexivity |]. split; [reflexivity |].
    split; [apply message_of_nonempty |].
    destruct (from_attributes m); [now right | now left].
Qed.


(** X9. Create and Read are open: the instance depends on the input only
    through the declared names.  Two mappings that agree on [name],
    [description] and [is_active] give the same Create instance, and two
    inputs whose fields are read, mappings or objects, that agree on the
    six names give the same Read instance; whatever else they hold is
    ignored. *)
Theorem undeclared_keys_ignored :
  (forall d d' o,
     (forall k, In k ["name"; "description"; "is_active"] ->
                dict_get d k = dict_get d' k) ->
     model_validate Schema.ExampleCreate (Plain (Dict d)) = inr o ->
     model_validate Schema.ExampleCreate (Plain (Dict d')) = inr o) /\
  (forall x y o,
     (forall k, In k ["name"; "description"; "is_active";
                      "id"; "created_at"; "updated_at"] ->
                lookup_field x k = lookup_field y k) ->
     model_validate Schema.ExampleRead (Plain x) = inr o ->
     model_validate Schema.ExampleRead (Plain y) = inr o).
Proof.
  split.
  - intros d d' o H.
    apply (open_model_agree Schema.ExampleCreate (Dict d) (Dict d') o I I
             eq_refl H).
  - intros x y o H.
    apply (open_model_agree Schema.ExampleRead x y o
             (readable_read x) (readable_read y) eq_refl H).
Qed.

(** X16. Create and Update are built from mappings only.  Any other input
    either is already an instance of the model, and is then returned as it
    is, or is refused with one error on the input as a whole, whatever
    attributes it has. *)
Theorem mappings_only (m : ModelSchema) (i : py_input) :
  In m [Schema.ExampleCreate; Schema.ExampleUpdate] ->
  (forall d, i <> Plain (Dict d)) ->
  (forall o,
     model_validate m i = inr o ->
     i = ModelInstance o /\ inst_class o = cls_name m) /\
  (forall errs,
     model_validate m i = inl errs -> unusable_report m errs).
Proof.
  intros Hm Hd.
  assert (E : from_attributes m = false)
    by (destruct Hm as [<- | [<- | []]]; reflexivity).
  destruct i as [[d | cls attrs] | o | v]; cbn [model_validate].
  - now contradiction (Hd d).
  - rewrite (validate_model_object_refused m cls attrs E).
    split; [discriminate |].
    intros errs [= <-]. apply unusable_report_model_type.
  - destruct (String.eqb_spec (inst_class o) (cls_name m)) as [Hc | _].
    + split; [| discriminate]. intros o' [= <-]. now split.
    + rewrite (validate_model_object_refused m _ _ E).
      split; [discriminate |].
      intros errs [= <-]. apply unusable_report_model_type.
  - rewrite E. split; [discriminate |].
    intros errs [= <-]. apply unusable_report_model_type.
Qed.

End WholeInputs.
(** ** Further runs on concrete inputs *)


Lemma typed_value_stored_unchanged_witness :
  of_declared_type Schema.is_active (VBool false) = true /\
  getattr
    (mk_instance "ExampleCreate"
       [("name", VStr (str_of "Test Item"));
        ("description", VStr (str_of "Test description"));
        ("is_active", VBool false)]
       ["name"; "description"; "is_active"])
    "is_active" = Some (VBool false).
Proof.
  split; [reflexivity |].
  exact (typed_value_stored_unchanged (lax := no_conversion)
           Schema.ExampleCreate
           (Dict [("name", VStr (str_of "Test Item"));
                  ("description", VStr (str_of "Test description"));
                  ("is_active", VBool false)])
           (mk_instance "ExampleCreate"
              [("name", VStr (str_of "Test Item"));
               ("description", VStr (str_of "Test description"));
               ("is_active", VBool false)]
              ["name"; "description"; "is_active"])
           "is_active" Schema.is_active (VBool false)
           (or_introl eq_refl) eq_refl
           (or_intror (or_intror (or_introl eq_refl)))
           eq_refl eq_refl).
Defined.

Lemma absent_field_defaulted_witness :
  lookup_field (Dict [("name", VStr (str_of "Test Item"))]) "is_active"
  = None /\
  getattr
    (mk_instance "ExampleCreate"
       [("name", VStr (str_of "Test Item")); ("description", VNone);
        ("is_active", VBool true)]
       ["name"])
    "is_active" = Some (VBool true) /\
  ~ In "is_active" ["name"].
Proof.
  split; [reflexivity |].
  exact (absent_field_defaulted (lax := no_conversion)
           Schema.ExampleCreate
           (Dict [("name", VStr (str_of "Test Item"))])
           (mk_instance "ExampleCreate"
              [("name", VStr (str_of "Test Item")); ("description", VNone);
               ("is_active", VBool true)]
              ["name"])
           "is_active" Schema.is_active
           (or_introl eq_refl) eq_refl
           (or_intror (or_intror (or_introl eq_refl)))
           eq_refl).
Defined.

Lemma base_invariant_holds_witness :
  parse_read (lax := no_conversion)
    (Dict [("id", VInt 1); ("name", VStr (str_of "Test Item"));
           ("is_active", VInt 1);
           ("created_at", VDatetime T0); ("updated_at", VDatetime T0)])
  = inr (mk_instance "ExampleRead"
           [("name", VStr (str_of "Test Item")); ("description", VNone);
            ("is_active", VBool true); ("id", VInt 1);
            ("created_at", VDatetime T0); ("updated_at", VDatetime T0)]
           ["name"; "is_active"; "id"; "created_at"; "updated_at"]) /\
  base_invariant
    (mk_instance "ExampleRead"
       [("name", VStr (str_of "Test Item")); ("description", VNone);
        ("is_active", VBool true); ("id", VInt 1);
        ("created_at", VDatetime T0); ("updated_at", VDatetime T0)]
       ["name"; "is_active"; "id"; "created_at"; "updated_at"]).
Proof.
  split; [reflexivity |].
  exact (base_invariant_holds (lax := no_conversion)
           Schema.ExampleRead
           (Dict [("id", VInt 1); ("name", VStr (str_of "Test Item"));
                  ("is_active", VInt 1);
                  ("created_at", VDatetime T0);
                  ("updated_at", VDatetime T0)])
           _ (or_intror (or_introl eq_refl)) eq_refl).
Defined.

Lemma patch_invariant_holds_witness :
  parse_update (lax := no_conversion)
    [("name", VStr (str_of "Updated Name")); ("is_active", VStr (str_of "off"))]
  = inr (mk_instance "ExampleUpdate"
           [("name", VStr (str_of "Updated Name")); ("description", VNone);
            ("is_active", VBool false)]
           ["name"; "is_active"]) /\
  patch_invariant
    (mk_instance "ExampleUpdate"
       [("name", VStr (str_of "Updated Name")); ("description", VNone);
        ("is_active", VBool false)]
       ["name"; "is_active"]).
Proof.
  split; [reflexivity |].
  exact (patch_invariant_holds (lax := no_conversion)
           [("name", VStr (str_of "Updated Name"));
            ("is_active", VStr (str_of "off"))]
           _ eq_refl).
Defined.

Lemma server_fields_typed_holds_witness :
  parse_read (lax := no_conversion)
    (Obj "MockORM"
       [("id", VBool true); ("name", VStr (str_of "ORM Item"));
        ("created_at", VDatetime T0); ("updated_at", VDatetime T0)])
  = inr (mk_instance "ExampleRead"
           [("name", VStr (str_of "ORM Item")); ("description", VNone);
            ("is_active", VBool true); ("id", VInt 1);
            ("created_at", VDatetime T0); ("updated_at", VDatetime T0)]
           ["name"; "id"; "created_at"; "updated_at"]) /\
  server_fields_typed
    (mk_instance "ExampleRead"
       [("name", VStr (str_of "ORM Item")); ("description", VNone);
        ("is_active", VBool true); ("id", VInt 1);
        ("created_at", VDatetime T0); ("updated_at", VDatetime T0)]
       ["name"; "id"; "created_at"; "updated_at"]).
Proof.
  split; [reflexivity |].
  exact (server_fields_typed_holds (lax := no_conversion)
           (Obj "MockORM"
              [("id", VBool true); ("name", VStr (str_of "ORM Item"));
               ("created_at", VDatetime T0);
               ("updated_at", VDatetime T0)])
           _ eq_refl).
Defined.


Lemma dump_round_trip_witness :
  In Schema.ExampleRead
     [Schema.ExampleCreate; Schema.ExampleUpdate; Schema.ExampleRead] /\
  validate_model (lax := no_conversion) Schema.ExampleRead
    (Dict (model_dump
       (mk_instance "ExampleRead"
          [("name", VStr (str_of "Test Item")); ("description", VNone);
           ("is_active", VBool true); ("id", VInt 1);
           ("created_at", VDatetime T0); ("updated_at", VDatetime T0)]
          ["name"; "id"; "created_at"; "updated_at"])))
  = inr (mk_instance "ExampleRead"
           [("name", VStr (str_of "Test Item")); ("description", VNone);
            ("is_active", VBool true); ("id", VInt 1);
            ("created_at", VDatetime T0); ("updated_at", VDatetime T0)]
           (field_names Schema.ExampleRead)).
Proof.
  assert (H1 : In Schema.ExampleRead
     [Schema.ExampleCreate; Schema.ExampleUpdate; Schema.ExampleRead])
    by (right; right; now left).
  split; [exact H1 |].
  exact (dump_round_trip (lax := no_conversion) Schema.ExampleRead
           (Dict [("id", VInt 1); ("name", VStr (str_of "Test Item"));
                  ("created_at", VDatetime T0);
                  ("updated_at", VDatetime T0)])
           (mk_instance "ExampleRead"
              [("name", VStr (str_of "Test Item")); ("description", VNone);
               ("is_active", VBool true); ("id", VInt 1);
               ("created_at", VDatetime T0); ("updated_at", VDatetime T0)]
              ["name"; "id"; "created_at"; "updated_at"])
           H1 eq_refl).
Defined.

Lemma parse_create_patch_round_trip_witness :
  parse_create (lax := no_conversion)
    [("is_active", VInt 0); ("name", VStr (str_of "Test Item"))]
  = inr (mk_instance "ExampleCreate"
           [("name", VStr (str_of "Test Item")); ("description", VNone);
            ("is_active", VBool false)]
           ["name"; "is_active"]) /\
  parse_create (lax := no_conversion)
    (model_dump_exclude_unset
       (mk_instance "ExampleCreate"
          [("name", VStr (str_of "Test Item")); ("description", VNone);
           ("is_active", VBool false)]
          ["name"; "is_active"]))
  = inr (mk_instance "ExampleCreate"
           [("name", VStr (str_of "Test Item")); ("description", VNone);
            ("is_active", VBool false)]
           ["name"; "is_active"]).
Proof.
  split; [reflexivity |].
  exact (parse_create_patch_round_trip (lax := no_conversion)
           [("is_active", VInt 0); ("name", VStr (str_of "Test Item"))]
           _ eq_refl).
Defined.

Lemma parse_update_patch_round_trip_witness :
  parse_update (lax := no_conversion)
    [("description", VNone); ("name", VStr (str_of "Updated Name"))]
  = inr (mk_instance "ExampleUpdate"
           [("name", VStr (str_of "Updated Name")); ("description", VNone);
            ("is_active", VNone)]
           ["name"; "description"]) /\
  parse_update (lax := no_conversion)
    (model_dump_exclude_unset
       (mk_instance "ExampleUpdate"
          [("name", VStr (str_of "Updated Name")); ("description", VNone);
           ("is_active", VNone)]
          ["name"; "description"]))
  = inr (mk_instance "ExampleUpdate"
           [("name", VStr (str_of "Updated Name")); ("description", VNone);
            ("is_active", VNone)]
           ["name"; "description"]).
Proof.
  split; [reflexivity |].
  exact (parse_update_patch_round_trip (lax := no_conversion)
           [("description", VNone); ("name", VStr (str_of "Updated Name"))]
           _ eq_refl).
Defined.

Lemma patch_keys_witness :
  parse_update (lax := no_conversion)
    [("description", VNone); ("name", VStr (str_of "Updated Name"))]
  = inr (mk_instance "ExampleUpdate"
           [("name", VStr (str_of "Updated Name")); ("description", VNone);
            ("is_active", VNone)]
           ["name"; "description"]) /\
  (In "description"
      (keys (model_dump_exclude_unset
               (mk_instance "ExampleUpdate"
                  [("name", VStr (str_of "Updated Name"));
                   ("description", VNone); ("is_active", VNone)]
                  ["name"; "description"])))
   <-> In "description"
         (keys [("description", VNone);
                ("name", VStr (str_of "Updated Name"))])).
Proof.
  split; [reflexivity |].
  exact (patch_keys (lax := no_conversion)
           [("description", VNone); ("name", VStr (str_of "Updated Name"))]
           _ "description" eq_refl).
Defined.

Lemma error_kinds_by_shape_witness :
  parse_update (lax := no_conversion)
    [("name", VStr []); ("extra_field", VStr (str_of "value"))]
  = inl [error (StringTooShort 1) ["name"] (InputValue (VStr []));
         error ExtraForbidden ["extra_field"]
           (InputValue (VStr (str_of "value")))] /\
  Forall (fun e => err_type e <> Missing /\
                   forall c, err_type e <> ModelType c)
    [error (StringTooShort 1) ["name"] (InputValue (VStr []));
     error ExtraForbidden ["extra_field"]
       (InputValue (VStr (str_of "value")))].
Proof.
  split; [reflexivity |].
  exact (proj1 (error_kinds_by_shape (lax := no_conversion))
           [("name", VStr []); ("extra_field", VStr (str_of "value"))]
           _ eq_refl).
Defined.

Lemma error_size_bounds_witness :
  parse_read (lax := no_conversion) (Dict [])
  = inl [error Missing ["name"] (InputData (Dict []));
         error Missing ["id"] (InputData (Dict []));
         error Missing ["created_at"] (InputData (Dict []));
         error Missing ["updated_at"] (InputData (Dict []))] /\
  1 <= List.length
         [error Missing ["name"] (InputData (Dict []));
          error Missing ["id"] (InputData (Dict []));
          error Missing ["created_at"] (InputData (Dict []));
          error Missing ["updated_at"] (InputData (Dict []))] <= 6.
Proof.
  split; [reflexivity |].
  exact (proj1 (proj2 (error_size_bounds (lax := no_conversion)))
           (Dict []) _ eq_refl).
Defined.

Lemma create_input_is_update_input_witness :
  declared_keys_only Schema.ExampleUpdate
    [("name", VStr (str_of "Test Item")); ("is_active", VBool false)] /\
  parse_create (lax := no_conversion)
    [("name", VStr (str_of "Test Item")); ("is_active", VBool false)]
  = inr (mk_instance "ExampleCreate"
           [("name", VStr (str_of "Test Item")); ("description", VNone);
            ("is_active", VBool false)]
           ["name"; "is_active"]) /\
  exists ou,
    parse_update (lax := no_conversion)
      [("name", VStr (str_of "Test Item")); ("is_active", VBool false)]
    = inr ou /\
    inst_fields_set ou = ["name"; "is_active"] /\
    forall k, In k ["name"; "is_active"] ->
      getattr ou k
      = getattr
          (mk_instance "ExampleCreate"
             [("name", VStr (str_of "Test Item")); ("description", VNone);
              ("is_active", VBool false)]
             ["name"; "is_active"]) k.
Proof.
  assert (H1 : declared_keys_only Schema.ExampleUpdate
    [("name", VStr (str_of "Test Item")); ("is_active", VBool false)]).
  { intros k [<- | [<- | []]]; cbn; tauto. }
  split; [exact H1 |]. split; [reflexivity |].
  exact (create_input_is_update_input (lax := no_conversion)
           [("name", VStr (str_of "Test Item")); ("is_active", VBool false)]
           (mk_instance "ExampleCreate"
              [("name", VStr (str_of "Test Item")); ("description", VNone);
               ("is_active", VBool false)]
              ["name"; "is_active"])
           H1 eq_refl).
Defined.

(** ** Inputs of every kind, run *)

(** C6, as stated, fails: a failed parse of a value that has no fields
    to read returns one entry with an empty path, which describes no
    field, whatever the invalid fields are taken to be. *)
Lemma unusable_input_counterexample :
  model_validate (lax := no_conversion) Schema.ExampleRead (Builtin (VInt 5))
  = inl [error ModelAttributesType [] (InputValue (VInt 5))] /\
  forall x,
    ~ one_entry_per_invalid_field (lax := no_conversion) Schema.ExampleRead x
        [error ModelAttributesType [] (InputValue (VInt 5))].
Proof.
  split; [reflexivity |].
  intros x [_ [_ [Hall _]]].
  inversion Hall as [| e l [k [Hloc _]] _]; subst. discriminate Hloc.
Qed.

Lemma failed_validation_report_witness :
  In Schema.ExampleCreate
     [Schema.ExampleCreate; Schema.ExampleUpdate; Schema.ExampleRead] /\
  model_validate (lax := no_conversion) Schema.ExampleCreate
    (Plain (Dict [("name", VStr []); ("is_active", VStr (str_of "maybe"))]))
  = inl [error (StringTooShort 1) ["name"] (InputValue (VStr []));
         error BoolParsing ["is_active"]
           (InputValue (VStr (str_of "maybe")))] /\
  one_entry_per_invalid_field (lax := no_conversion) Schema.ExampleCreate
    (Dict [("name", VStr []); ("is_active", VStr (str_of "maybe"))])
    [error (StringTooShort 1) ["name"] (InputValue (VStr []));
     error BoolParsing ["is_active"] (InputValue (VStr (str_of "maybe")))].
Proof.
  assert (H1 : In Schema.ExampleCreate
     [Schema.ExampleCreate; Schema.ExampleUpdate; Schema.ExampleRead])
    by now left.
  split; [exact H1 |]. split; [reflexivity |].
  exact (failed_validation_report (lax := no_conversion)
           Schema.ExampleCreate
           (Plain (Dict [("name", VStr []);
                         ("is_active", VStr (str_of "maybe"))]))
           [error (StringTooShort 1) ["name"] (InputValue (VStr []));
            error BoolParsing ["is_active"]
              (InputValue (VStr (str_of "maybe")))]
           H1 eq_refl).
Defined.



Lemma undeclared_keys_ignored_witness :
  model_validate (lax := no_conversion) Schema.ExampleCreate
    (Plain (Dict [("name", VStr (str_of "Test"));
                  ("extra_field", VStr (str_of "value"))]))
  = inr (mk_instance "ExampleCreate"
           [("name", VStr (str_of "Test")); ("description", VNone);
            ("is_active", VBool true)]
           ["name"]) /\
  model_validate (lax := no_conversion) Schema.ExampleCreate
    (Plain (Dict [("name", VStr (str_of "Test"))]))
  = inr (mk_instance "ExampleCreate"
           [("name", VStr (str_of "Test")); ("description", VNone);
            ("is_active", VBool true)]
           ["name"]).
Proof.
  split; [reflexivity |].
  apply (proj1 (undeclared_keys_ignored (lax := no_conversion))
           [("name", VStr (str_of "Test"));
            ("extra_field", VStr (str_of "value"))]
           [("name", VStr (str_of "Test"))]).
  - intros k [<- | [<- | [<- | []]]]; reflexivity.
  - reflexivity.
Defined.

Lemma mappings_only_witness :
  In Schema.ExampleCreate [Schema.ExampleCreate; Schema.ExampleUpdate] /\
  (forall d,
     Plain (Obj "MockORM" [("name", VStr (str_of "ORM Item"))])
     <> Plain (Dict d)) /\
  model_validate (lax := no_conversion) Schema.ExampleCreate
    (Plain (Obj "MockORM" [("name", VStr (str_of "ORM Item"))]))
  = inl [error (ModelType "ExampleCreate") []
           (InputData (Obj "MockORM" [("name", VStr (str_of "ORM Item"))]))]
  /\
  unusable_report Schema.ExampleCreate
    [error (ModelType "ExampleCreate") []
       (InputData (Obj "MockORM" [("name", VStr (str_of "ORM Item"))]))].
Proof.
  assert (H1 : In Schema.ExampleCreate
                 [Schema.ExampleCreate; Schema.ExampleUpdate]) by now left.
  assert (H2 : forall d,
     Plain (Obj "MockORM" [("name", VStr (str_of "ORM Item"))])
     <> Plain (Dict d)) by (intros d; discriminate).
  split; [exact H1 |]. split; [exact H2 |]. split; [reflexivity |].
  exact (proj2 (mappings_only (lax := no_conversion)
                  Schema.ExampleCreate
                  (Plain (Obj "MockORM"
                     [("name", VStr (str_of "ORM Item"))]))
                  H1 H2)
           _ eq_refl).
Defined.
